(** * claude-tools: the phase runner and the voice command watcher

    A shallow embedding of [phased-implementation.py] and of the
    [voice] package ([file_watcher.py], [claude_parser.py],
    [command_executor.py], [domain/models.py]).

    Python values keep the shape they have at run time: integers are [Z],
    [str] is [string], a list is a [list], the result of [json.loads] is a
    [json] tree, a dataclass is a [Record].  Exceptions are explicit: a
    computation that may raise returns a [res].  The outside world (the
    assistant's command line tool, the file system, the clock, the OS
    automation commands) answers through environment records, and every
    call that leaves the process is recorded in a list of events. *)

From Stdlib Require Import ZArith QArith List String Ascii Bool Lia.
From Stdlib Require Import Decimal DecimalString DecimalZ Sorted.
Import ListNotations.

Set Warnings "-register-all".

Local Open Scope string_scope.
Local Open Scope list_scope.

(** ** Python primitives *)

Module Py.

(** Subclasses of [Exception] the modelled code can meet.  [KeyboardInterrupt]
    and [SystemExit] derive from [BaseException]; no [except Exception]
    clause catches them and they are not members of this type. *)
Inductive exn : Type :=
| AttributeError
| TypeError
| KeyError
| IndexError
| RuntimeError
| OSError
| TimeoutExpired
| JSONDecodeError
| CalledProcessError.

Inductive res (A : Type) : Type :=
| Ok (a : A)
| Raise (e : exn).
Arguments Ok {A} a.
Arguments Raise {A} e.

Definition bind {A B : Type} (m : res A) (k : A -> res B) : res B :=
  match m with
  | Ok a => k a
  | Raise e => Raise e
  end.

Notation "x <- m ;; k" := (bind m (fun x => k))
  (at level 61, m at next level, right associativity).

(** [try: m except Exception: h] *)
Definition try_except {A : Type} (m : res A) (h : exn -> res A) : res A :=
  match m with
  | Ok a => Ok a
  | Raise e => h e
  end.

(** [len(l)] as a Python integer. *)
Definition len {A : Type} (l : list A) : Z := Z.of_nat (List.length l).

(** [l[i]]: a negative index counts from the end, anything outside
    [-len(l) <= i < len(l)] raises [IndexError]. *)
Definition getitem {A : Type} (l : list A) (i : Z) : res A :=
  let j := if (i <? 0)%Z then (i + len l)%Z else i in
  if ((j <? 0) || (len l <=? j))%Z then Raise IndexError
  else match nth_error l (Z.to_nat j) with
       | Some a => Ok a
       | None => Raise IndexError
       end.

(** [l[i:]]: a negative start counts from the end and is clipped at 0, a
    start beyond the end gives the empty list. *)
Definition slice_from {A : Type} (i : Z) (l : list A) : list A :=
  let j := if (i <? 0)%Z then Z.max 0 (i + len l) else i in
  skipn (Z.to_nat j) l.

(** [s.startswith(p)] *)
Fixpoint startswith (s p : string) {struct p} : bool :=
  match p with
  | EmptyString => true
  | String c p' =>
      match s with
      | EmptyString => false
      | String d s' => Ascii.eqb d c && startswith s' p'
      end
  end.

(** [s[n:]] for [n >= 0] *)
Fixpoint str_slice_from (n : nat) (s : string) : string :=
  match n with
  | O => s
  | S n' =>
      match s with
      | EmptyString => EmptyString
      | String _ s' => str_slice_from n' s'
      end
  end.

(** ["*" in s] and friends: membership of a character. *)
Fixpoint contains_char (c : ascii) (s : string) : bool :=
  match s with
  | EmptyString => false
  | String d s' => Ascii.eqb d c || contains_char c s'
  end.

(** Truth value of a string: non-empty. *)
Definition str_truthy (s : string) : bool :=
  match s with
  | EmptyString => false
  | String _ _ => true
  end.

(** What [json.loads] returns.  An object is kept as its list of items in
    insertion order; [d.get(k)] finds the first item with key [k]. *)
Inductive json : Type :=
| JNull
| JBool (b : bool)
| JNum (z : Z)
| JFloat (q : Q)
| JStr (s : string)
| JArr (l : list json)
| JObj (items : list (string * json)).

(** [bool(v)] *)
Definition truthy (v : json) : bool :=
  match v with
  | JNull => false
  | JBool b => b
  | JNum z => negb (z =? 0)%Z
  | JFloat q => negb (Qeq_bool q 0)
  | JStr s => str_truthy s
  | JArr l => match l with [] => false | _ :: _ => true end
  | JObj items => match items with [] => false | _ :: _ => true end
  end.

Fixpoint lookup (k : string) (items : list (string * json)) : option json :=
  match items with
  | [] => None
  | (k', v) :: rest => if String.eqb k' k then Some v else lookup k rest
  end.

(** [d.get(k, default)]: only a dict has [get]. *)
Definition get (d : json) (k : string) (default : json) : res json :=
  match d with
  | JObj items =>
      match lookup k items with
      | Some v => Ok v
      | None => Ok default
      end
  | _ => Raise AttributeError
  end.

(** [d[k]] on the value [d]: a dict raises [KeyError] on a missing key, a
    list or a string indexed by a string raises [TypeError], so does every
    value that is not subscriptable. *)
Definition getkey (d : json) (k : string) : res json :=
  match d with
  | JObj items =>
      match lookup k items with
      | Some v => Ok v
      | None => Raise KeyError
      end
  | _ => Raise TypeError
  end.

Definition chars (s : string) : list json :=
  map (fun c => JStr (String c EmptyString)) (list_ascii_of_string s).

(** [v[-1]]: the last element of a list, the last character of a string;
    a dict has no key [-1] after [json.loads]; other values are not
    subscriptable. *)
Definition getlast (v : json) : res json :=
  match v with
  | JArr l => getitem l (-1)
  | JStr s => getitem (chars s) (-1)
  | JObj _ => Raise KeyError
  | _ => Raise TypeError
  end.

(** [for x in v]: the elements of a list, the characters of a string, the
    keys of a dict; other values are not iterable. *)
Definition iter (v : json) : res (list json) :=
  match v with
  | JArr l => Ok l
  | JStr s => Ok (chars s)
  | JObj items => Ok (map (fun kv => JStr (fst kv)) items)
  | _ => Raise TypeError
  end.

(** [[f(x) for x in l]]: the first exception ends the comprehension. *)
Fixpoint mapM {A B : Type} (f : A -> res B) (l : list A) : res (list B) :=
  match l with
  | [] => Ok []
  | a :: rest =>
      b <- f a ;;
      bs <- mapM f rest ;;
      Ok (b :: bs)
  end.

(** [v == s] for a string literal [s]. *)
Definition is_str (v : json) (s : string) : bool :=
  match v with
  | JStr s' => String.eqb s' s
  | _ => false
  end.

(** [sep.join(l)] *)
Fixpoint join (sep : string) (l : list string) : string :=
  match l with
  | [] => EmptyString
  | [s] => s
  | s :: rest => (s ++ sep ++ join sep rest)%string
  end.

(** [s.split(sep)] for a one-character separator. *)
Fixpoint split (sep : ascii) (s : string) : list string :=
  match s with
  | EmptyString => [EmptyString]
  | String c s' =>
      if Ascii.eqb c sep then EmptyString :: split sep s'
      else match split sep s' with
           | [] => [String c EmptyString]
           | w :: ws => String c w :: ws
           end
  end.

Definition newline : string := String (ascii_of_nat 10) EmptyString.
Definition dquote : string := String (ascii_of_nat 34) EmptyString.
Definition star : ascii := ascii_of_nat 42.
Definition slash : ascii := ascii_of_nat 47.
Definition tilde : ascii := ascii_of_nat 126.

(** *** [pathlib.PurePosixPath]

    A path is its root and its parts.  The root is ["/"] for a text that
    starts with a slash, ["//"] when it starts with exactly two, and empty
    otherwise.  [Path(s)] splits at slashes and drops empty parts and single
    dots. *)
Record path : Type := mkPath { root : string; parts : list string }.

Definition keep_part (p : string) : bool :=
  negb (String.eqb p EmptyString || String.eqb p ".").

Definition root_of (s : string) : string :=
  match s with
  | String a rest =>
      if Ascii.eqb a slash
      then match rest with
           | String b rest' =>
               if Ascii.eqb b slash
               then match rest' with
                    | String c _ => if Ascii.eqb c slash then "/" else "//"
                    | EmptyString => "//"
                    end
               else "/"
           | EmptyString => "/"
           end
      else EmptyString
  | EmptyString => EmptyString
  end.

Definition Path (s : string) : path :=
  {| root := root_of s;
     parts := filter keep_part (split slash s) |}.

(** [str(p)] *)
Definition path_str (p : path) : string :=
  match str_truthy (root p), parts p with
  | false, [] => "."
  | _, ps => (root p ++ join "/" ps)%string
  end.

(** [p.parent] *)
Definition parent (p : path) : path :=
  {| root := root p; parts := removelast (parts p) |}.

(** [p.name] *)
Definition name (p : path) : string := last (parts p) EmptyString.

Definition path_eqb (p q : path) : bool :=
  String.eqb (root p) (root q)
  && (if list_eq_dec string_dec (parts p) (parts q) then true else false).

(** [str(n)] for an integer. *)
Definition str_of_int (n : Z) : string := NilZero.string_of_int (Z.to_int n).

(** [format(n, "02d")]: a zero in front of a single digit. *)
Definition fmt02d (n : Z) : string :=
  if ((0 <=? n) && (n <? 10))%Z then ("0" ++ str_of_int n)%string
  else str_of_int n.

(** [l[:i]]: a negative end counts from the end and is clipped at 0. *)
Definition slice_to {A : Type} (i : Z) (l : list A) : list A :=
  let j := if (i <? 0)%Z then Z.max 0 (i + len l) else i in
  firstn (Z.to_nat j) l.

End Py.

Import Py.

(** ** The voice watcher and the world around it *)

Module Voice.

(** The two holes of the template [PARSE_PROMPT]; the fixed text around them
    is the same in every call. *)
Record prompt : Type := mkPrompt {
  context_messages : string;
  latest_message : string
}.

(** The argument vector of a [subprocess.run] call and what it gets on its
    standard input. *)
Record command_line : Type := mkCommandLine {
  argv : list string;
  input : option string
}.

(** What [subprocess.run] does for the assistant's command line tool: it
    completes with a return code (and [json.loads(result.stdout)] then gives
    a value or raises [JSONDecodeError]), or it raises: [TimeoutExpired]
    after 30 seconds, [OSError] when the tool cannot be started. *)
Inductive run_outcome : Type :=
| Completed (returncode : Z) (stdout_json : res json)
| RunRaises (e : exn).

(** One look at the world: the answers the watcher gets during one
    iteration of its loop.  The OS automation commands ([open], [pbcopy],
    [osascript]) signal by their return code. *)
Record env : Type := mkEnv {
  watched_exists : bool;          (* [self.file_path.exists()] in [watch] *)
  watched_exists_again : bool;    (* the same test in [read_file] *)
  watched_read_text : res string; (* [self.file_path.read_text()] *)
  claude_run : prompt -> run_outcome;
  os_run : command_line -> Z;
  fs_exists : path -> bool;       (* [Path.exists] *)
  fs_glob : path -> string -> res (list path);  (* [list(parent.glob(pattern))] *)
  fs_home : string -> option string  (* [os.path.expanduser] of ["~user"] *)
}.

Inductive event : Type :=
| EvExists
| EvReadText
| EvClaude (p : prompt)
| EvRun (c : command_line)
| EvSleep (interval : Q).

(** Computations that leave a trace of events and may raise. *)
Definition M (A : Type) : Type := (list event * res A)%type.

Definition ret {A : Type} (a : A) : M A := ([], Ok a).
Definition raise {A : Type} (e : exn) : M A := ([], Raise e).
Definition emit (ev : event) : M unit := ([ev], Ok tt).
Definition lift {A : Type} (r : res A) : M A := ([], r).

Definition bindM {A B : Type} (m : M A) (k : A -> M B) : M B :=
  match m with
  | (t, Ok a) => let (t', r) := k a in (t ++ t', r)
  | (t, Raise e) => (t, Raise e)
  end.

(** [try: m except ...: h e]; the handler re-raises what its clause does not
    name. *)
Definition tryM {A : Type} (m : M A) (h : exn -> M A) : M A :=
  match m with
  | (t, Ok a) => (t, Ok a)
  | (t, Raise e) => let (t', r) := h e in (t ++ t', r)
  end.

Notation "x <~ m ;; k" := (bindM m (fun x => k))
  (at level 61, m at next level, right associativity).
Notation "m ;;; k" := (bindM m (fun _ => k))
  (at level 61, right associativity).

(** [for x in l: body x] *)
Fixpoint forM {A : Type} (l : list A) (body : A -> M unit) : M unit :=
  match l with
  | [] => ret tt
  | a :: rest => body a ;;; forM rest body
  end.

(** [subprocess.run(cmd, check=True)] for an OS automation command. *)
Definition run_check (w : env) (c : command_line) : M unit :=
  emit (EvRun c) ;;;
  if (os_run w c =? 0)%Z then ret tt else raise CalledProcessError.

(** *** [voice/domain/models.py] *)

(** The dataclasses carry whatever [from_dict] puts in them: nothing checks
    the annotations [type: str], [args: dict] at run time. *)
Record Command : Type := mkCommand { type : json; args : json }.

Record ParsedInput : Type := mkParsedInput {
  session_prompt : json;
  commands : list Command
}.

(** [ParsedInput.from_dict] *)
Definition from_dict (data : json) : res ParsedInput :=
  cmds <- get data "commands" (JArr []) ;;
  items <- iter cmds ;;
  commands <- mapM (fun cmd =>
                      t <- get cmd "type" (JStr "") ;;
                      a <- get cmd "args" (JObj []) ;;
                      Ok (mkCommand t a)) items ;;
  sp <- get data "sessionPrompt" JNull ;;
  Ok (mkParsedInput sp commands).

(** *** [voice/application/claude_parser.py] *)

(** [PARSE_SCHEMA]: does a value fit the schema the assistant is asked to
    follow?  An object with the required keys [sessionPrompt] (a string or
    null) and [commands] (an array of objects with the required keys [type],
    a string, and [args], an object). *)
Definition fits_command (v : json) : bool :=
  match v with
  | JObj items =>
      match lookup "type" items, lookup "args" items with
      | Some (JStr _), Some (JObj _) => true
      | _, _ => false
      end
  | _ => false
  end.

Definition fits_PARSE_SCHEMA (v : json) : bool :=
  match v with
  | JObj items =>
      match lookup "sessionPrompt" items, lookup "commands" items with
      | Some (JStr _), Some (JArr l) => forallb fits_command l
      | Some JNull, Some (JArr l) => forallb fits_command l
      | _, _ => false
      end
  | _ => false
  end.

(** [ClaudeParser.__init__]'s default. *)
Definition default_context_size : Z := 10.

(** [ClaudeParser.add_message]: the state is the field [message_history];
    [context_size] is the capacity. *)
Definition add_message (context_size : Z) (message_history : list string)
    (message : string) : list string :=
  let message_history := message_history ++ [message] in
  if (context_size <? len message_history)%Z
  then slice_from (- context_size) message_history
  else message_history.

(** A run of [add_message] calls, one after the other. *)
Definition add_messages (context_size : Z) (history : list string)
    (messages : list string) : list string :=
  fold_left (add_message context_size) messages history.

(** [ClaudeParser._call_claude]; Python's [None] is [JNull]. *)
Definition _call_claude (w : env) (p : prompt) : M json :=
  tryM
    (emit (EvClaude p) ;;;
     match claude_run w p with
     | RunRaises e => raise e
     | Completed returncode stdout_json =>
         if negb (returncode =? 0)%Z then ret JNull
         else lift (output <- stdout_json ;;
                    last <- getlast output ;;
                    getkey last "structured_output")
     end)
    (fun e =>
       match e with
       | TimeoutExpired => ret JNull
       | JSONDecodeError => ret JNull
       | _ => ret JNull
       end).

(** The context built in [parse]: all but the last message of the history. *)
Definition build_context (message_history : list string) : string :=
  if (1 <? len message_history)%Z
  then join newline (map (fun msg => ("- " ++ msg)%string) (removelast message_history))
  else "(No prior context)".

(** [ClaudeParser.parse]: returns the new [message_history] with the
    result. *)
Definition parse (w : env) (context_size : Z) (message_history : list string)
    (latest_message : string) : list string * M (option ParsedInput) :=
  let message_history := add_message context_size message_history latest_message in
  let p := mkPrompt (build_context message_history) latest_message in
  (message_history,
   tryM
     (result <~ _call_claude w p ;;
      if truthy result
      then parsed <~ lift (from_dict result) ;; ret (Some parsed)
      else ret None)
     (fun _ => ret None)).

(** *** [voice/application/command_executor.py] *)

(** [Path.expanduser]: a relative path whose first part starts with a tilde
    has that part replaced by the home directory, and raises [RuntimeError]
    when there is none. *)
Definition expanduser (w : env) (p : path) : res path :=
  match str_truthy (root p), parts p with
  | false, first :: rest =>
      if startswith first "~"
      then match fs_home w first with
           | Some homedir =>
               Ok {| root := root (Path homedir);
                     parts := parts (Path homedir) ++ rest |}
           | None => Raise RuntimeError
           end
      else Ok p
  | _, _ => Ok p
  end.

(** An element of an argument vector must be a string. *)
Definition as_arg (v : json) : M string :=
  match v with
  | JStr s => ret s
  | _ => raise TypeError
  end.

(** [CommandExecutor._open_app] *)
Definition _open_app (w : env) (args : json) : M bool :=
  app <~ lift (get args "app" JNull) ;;
  if negb (truthy app) then ret false
  else
    a <~ as_arg app ;;
    run_check w (mkCommandLine ["open"; "-a"; a] None) ;;;
    ret true.

(** [CommandExecutor._open_file] *)
Definition _open_file (w : env) (args : json) : M bool :=
  path <~ lift (get args "path" JNull) ;;
  app <~ lift (get args "app" JNull) ;;
  if negb (truthy path) then ret false
  else
    match path with
    | JStr s =>
        expanded_path <~ lift (expanduser w (Path s)) ;;
        resolved <~ (if contains_char star s
                     then matches <~ lift (fs_glob w (parent expanded_path)
                                                     (name expanded_path)) ;;
                          match matches with
                          | first :: _ => ret (Some first)
                          | [] => ret None
                          end
                     else ret (Some expanded_path)) ;;
        match resolved with
        | None => ret false
        | Some expanded_path =>
            if negb (fs_exists w expanded_path) then ret false
            else
              (if truthy app
               then a <~ as_arg app ;;
                    run_check w (mkCommandLine
                                   ["open"; "-a"; a; path_str expanded_path] None)
               else run_check w (mkCommandLine
                                   ["open"; path_str expanded_path] None)) ;;;
              ret true
        end
    | _ => raise TypeError
    end.

Definition key_script (key_code : string) : string :=
  ("tell application " ++ dquote ++ "System Events" ++ dquote
   ++ " to key code " ++ key_code)%string.

(** [range(amount)]: an integer (a boolean is one) or [TypeError]. *)
Definition range (amount : json) : M (list unit) :=
  match amount with
  | JNum z => ret (repeat tt (Z.to_nat z))
  | JBool b => ret (repeat tt (if b then 1 else 0)%nat)
  | _ => raise TypeError
  end.

(** [CommandExecutor._scroll] *)
Definition _scroll (w : env) (args : json) : M bool :=
  direction <~ lift (get args "direction" (JStr "down")) ;;
  amount <~ lift (get args "amount" (JNum 5)) ;;
  let arrows (key_code : string) : M bool :=
    times <~ range amount ;;
    forM times (fun _ =>
      run_check w (mkCommandLine ["osascript"; "-e"; key_script key_code] None)) ;;;
    ret true in
  if is_str direction "up" then arrows "126"
  else if is_str direction "down" then arrows "125"
  else if is_str direction "top" then
    run_check w (mkCommandLine
      ["osascript"; "-e"; (key_script "126" ++ " using command down")%string] None) ;;;
    ret true
  else if is_str direction "bottom" then
    run_check w (mkCommandLine
      ["osascript"; "-e"; (key_script "125" ++ " using command down")%string] None) ;;;
    ret true
  else ret false.

(** The registry [handlers] of [execute]. *)
Definition handlers (kind : string) : option (env -> json -> M bool) :=
  if String.eqb kind "openApp" then Some _open_app
  else if String.eqb kind "openFile" then Some _open_file
  else if String.eqb kind "scroll" then Some _scroll
  else None.

(** [CommandExecutor.execute]: [handlers.get(command.type)] hashes its key,
    outside the [try]; a list or a dict is not hashable. *)
Definition execute (w : env) (command : Command) : M bool :=
  match type command with
  | JArr _ | JObj _ => raise TypeError
  | JStr kind =>
      match handlers kind with
      | Some handler => tryM (handler w (args command)) (fun _ => ret false)
      | None => ret false
      end
  | _ => ret false
  end.

(** *** [voice/application/file_watcher.py] *)

(** The fields of [FileWatcher] that change: [last_content], and the
    [message_history] of its parser (created with [ClaudeParser()]). *)
Record watcher : Type := mkWatcher {
  last_content : string;
  message_history : list string
}.

(** [FileWatcher.__init__] *)
Definition init : watcher := mkWatcher "" [].

(** [FileWatcher.read_file]; [None] is Python's [None]. *)
Definition read_file (w : env) : M (option string) :=
  tryM
    (emit EvExists ;;;
     if watched_exists_again w
     then emit EvReadText ;;;
          text <~ lift (watched_read_text w) ;;
          ret (Some text)
     else ret None)
    (fun _ => ret None).

(** [FileWatcher.extract_new_content] *)
Definition extract_new_content (st : watcher) (current_content : string) : string :=
  if startswith current_content (last_content st)
  then str_slice_from (String.length (last_content st)) current_content
  else current_content.

Definition paste_script : list string :=
  ["osascript";
   "-e"; ("tell application " ++ dquote ++ "Terminal" ++ dquote ++ " to activate")%string;
   "-e"; ("tell application " ++ dquote ++ "System Events" ++ dquote
          ++ " to keystroke " ++ dquote ++ "v" ++ dquote ++ " using command down")%string;
   "-e"; "delay 0.2";
   "-e"; ("tell application " ++ dquote ++ "System Events" ++ dquote
          ++ " to keystroke return")%string].

(** [FileWatcher.send_to_terminal]: [text.encode] needs a string; only
    [CalledProcessError] is handled. *)
Definition send_to_terminal (w : env) (text : json) : M unit :=
  tryM
    (encoded <~ match text with
                | JStr s => ret s
                | _ => raise AttributeError
                end ;;
     run_check w (mkCommandLine ["pbcopy"] (Some encoded)) ;;;
     run_check w (mkCommandLine paste_script None))
    (fun e =>
       match e with
       | CalledProcessError => ret tt
       | _ => raise e
       end).

(** [FileWatcher.process_input]: returns the parser's new history with the
    computation. *)
Definition process_input (w : env) (st : watcher) (text : string)
    : list string * M unit :=
  let (history, parsing) := parse w default_context_size (message_history st) text in
  (history,
   parsed <~ parsing ;;
   match parsed with
   | None => send_to_terminal w (JStr text)
   | Some parsed =>
       forM (commands parsed) (fun cmd => execute w cmd ;;; ret tt) ;;;
       if truthy (session_prompt parsed)
       then send_to_terminal w (session_prompt parsed)
       else ret tt
   end).

(** One iteration of the [while True] loop of [FileWatcher.watch]. *)
Definition watch_iteration (interval : Q) (w : env) (st : watcher) : M watcher :=
  emit EvExists ;;;
  if negb (watched_exists w)
  then emit (EvSleep interval) ;;; ret st
  else
    content <~ read_file w ;;
    match content with
    | None => ret st        (* [continue] *)
    | Some content =>
        st <~ (if negb (String.eqb content (last_content st)) && str_truthy content
               then let new_text := extract_new_content st content in
                    let (history, processing) := process_input w st new_text in
                    processing ;;;
                    ret (mkWatcher content history)
               else ret st) ;;
        emit (EvSleep interval) ;;;
        ret st
    end.

(** The first iterations of [FileWatcher.watch], one per look at the
    world.  The loop itself only ends by an exception. *)
Fixpoint watch (interval : Q) (ws : list env) (st : watcher) : M watcher :=
  match ws with
  | [] => ret st
  | w :: rest =>
      st <~ watch_iteration interval w st ;;
      watch interval rest st
  end.

Definition default_interval : Q := 1.

End Voice.

(** ** The phase runner: [phased-implementation.py] *)

Module PhaseRunner.

(** The status report as [STATUS_SCHEMA] shapes it.  The schema says no more
    of [nextPhaseIndex] than that it is an integer. *)
Record Phase : Type := mkPhase { description : string; status : string }.

Record Report : Type := mkReport {
  phases : list Phase;
  nextPhaseIndex : Z
}.

(** What [subprocess.run] does inside [clauded] (there is no timeout): it
    completes with a return code, and reading
    [json.loads(result.stdout)[-1]['structured_output']] then gives a value
    or raises; or it raises itself. *)
Inductive run_outcome (A : Type) : Type :=
| Completed (returncode : Z) (structured_output : res A)
| RunRaises (e : exn).
Arguments Completed {A} returncode structured_output.
Arguments RunRaises {A} e.

(** The answers the runner gets during one iteration of its main loop:
    the value of [time.time() - script_start] at the time check, the
    assistant's run for the phase it is asked to execute, and its run for the
    status query that follows. *)
Record env : Type := mkEnv {
  elapsed : Q;
  phase_run : Z -> string -> run_outcome json;
  status_run : run_outcome Report
}.

Inductive event : Type :=
| EvGetPhaseStatus
| EvExecutePhase (phase_index : Z) (phase_description : string)
| EvSleep (seconds : Z)
| EvMoveSpec
| EvGit (argv : list string)
| EvAfplay.

(** How the process ends. *)
Inductive terminal : Type :=
| AlreadyComplete      (* [sys.exit(0)] before the loop *)
| AllComplete          (* the loop ended with [next_phase_idx == -1] *)
| TimeLimitReached     (* the loop ended by [break] *)
| StatusError          (* [sys.exit(1)]: [get_phase_status] raised *)
| PhaseRaised          (* [sys.exit(1)]: [execute_phase] raised *)
| PhaseFailed          (* [sys.exit(1)]: the phase reported failure *)
| Uncaught (e : exn).  (* traceback; the interpreter exits with status 1 *)

Definition exit_code (t : terminal) : Z :=
  match t with
  | AlreadyComplete | AllComplete | TimeLimitReached => 0
  | StatusError | PhaseRaised | PhaseFailed | Uncaught _ => 1
  end.

(** [clauded]: the timer around the call only draws. *)
Definition clauded {A : Type} (run : run_outcome A) : res A :=
  match run with
  | RunRaises e => Raise e
  | Completed returncode structured_output =>
      if negb (returncode =? 0)%Z then Raise RuntimeError
      else structured_output
  end.

Definition get_phase_status (run : run_outcome Report) : res Report :=
  clauded run.

Definition execute_phase (w : env) (phase_index : Z) (phase_description : string)
    : res json :=
  clauded (phase_run w phase_index phase_description).

(** What one pass through the body of [while next_phase_idx != -1] leads
    to. *)
Inductive flow : Type :=
| Continue (phases : list Phase) (next_phase_idx : Z)
| Break
| SysExit (t : terminal).

Definition loop_body (max_runtime_seconds : Z) (w : env)
    (phases : list Phase) (next_phase_idx : Z) : list event * flow :=
  if Qle_bool (inject_Z max_runtime_seconds) (elapsed w) then ([], Break)
  else
    match getitem phases next_phase_idx with
    | Raise e => ([], SysExit (Uncaught e))
    | Ok current_phase =>
        let call := EvExecutePhase next_phase_idx (description current_phase) in
        match execute_phase w next_phase_idx (description current_phase) with
        | Raise _ => ([call], SysExit PhaseRaised)
        | Ok result =>
            match get result "success" (JBool false) with
            | Raise e => ([call], SysExit (Uncaught e))
            | Ok success =>
                if negb (truthy success) then ([call], SysExit PhaseFailed)
                else
                  match get_phase_status (status_run w) with
                  | Raise _ => ([call; EvGetPhaseStatus], SysExit StatusError)
                  | Ok status =>
                      let phases := PhaseRunner.phases status in
                      let next_phase_idx := nextPhaseIndex status in
                      ([call; EvGetPhaseStatus]
                         ++ (if negb (next_phase_idx =? -1)%Z
                             then [EvSleep 2] else []),
                       Continue phases next_phase_idx)
                  end
            end
        end
    end.

(** How the loop is left: past its end with the last values of [phases] and
    [next_phase_idx], or through [sys.exit] or an uncaught exception.
    [Unfinished] says that the answers given ran out while the loop was
    still going. *)
Inductive loop_end : Type :=
| Left (phases : list Phase) (next_phase_idx : Z)
| Exited (t : terminal)
| Unfinished (phases : list Phase) (next_phase_idx : Z).

Fixpoint main_loop (max_runtime_seconds : Z) (ws : list env)
    (phases : list Phase) (next_phase_idx : Z) : list event * loop_end :=
  if (next_phase_idx =? -1)%Z then ([], Left phases next_phase_idx)
  else
    match ws with
    | [] => ([], Unfinished phases next_phase_idx)
    | w :: rest =>
        match loop_body max_runtime_seconds w phases next_phase_idx with
        | (t, Continue phases' next_phase_idx') =>
            let (t', e) := main_loop max_runtime_seconds rest phases' next_phase_idx' in
            (t ++ t', e)
        | (t, Break) => (t, Left phases next_phase_idx)
        | (t, SysExit term) => (t, Exited term)
        end
    end.

(** The result of a run: the terminal state, or [None] when the answers
    given ran out. *)
Definition result : Type := option terminal.

(** The final summary and what follows it.  What follows a complete plan
    is recorded as the steps the code goes through when none of them raises;
    a step that raises would end the run there, which this model leaves out.
    The event of [git add] does not carry the two paths it is given. *)
Definition finish (move_on_complete : bool) (l : list event * loop_end)
    : list event * result :=
  match l with
  | (t, Left phases next_phase_idx) =>
      if (next_phase_idx =? -1)%Z
      then (t ++ (if move_on_complete
                  then [EvMoveSpec;
                        EvGit ["git"; "add"];
                        EvGit ["git"; "commit"; "-m";
                               "Move completed spec to docs/completed"]]
                  else [])
              ++ [EvAfplay; EvAfplay],
            Some AllComplete)
      else (t, Some TimeLimitReached)
  | (t, Exited term) => (t, Some term)
  | (t, Unfinished _ _) => (t, None)
  end.

(** [main] from the top of its loop on. *)
Definition main_from_loop (move_on_complete : bool) (max_runtime_seconds : Z)
    (ws : list env) (phases : list Phase) (next_phase_idx : Z)
    : list event * result :=
  finish move_on_complete (main_loop max_runtime_seconds ws phases next_phase_idx).

(** [main] once the planning document is known: [first] is the assistant's
    run for the first status query, [ws] the answers for the iterations of
    the loop. *)
Definition main (move_on_complete : bool) (max_runtime_seconds : Z)
    (first : run_outcome Report) (ws : list env) : list event * result :=
  match get_phase_status first with
  | Raise _ => ([EvGetPhaseStatus], Some StatusError)
  | Ok status =>
      let phases := PhaseRunner.phases status in
      let next_phase_idx := nextPhaseIndex status in
      if (next_phase_idx =? -1)%Z then ([EvGetPhaseStatus], Some AlreadyComplete)
      else
        match getitem phases next_phase_idx with
        | Raise e => ([EvGetPhaseStatus], Some (Uncaught e))
        | Ok _ =>
            let (t, r) := main_from_loop move_on_complete max_runtime_seconds
                            ws phases next_phase_idx in
            (EvGetPhaseStatus :: t, r)
        end
  end.

(** Did the runner ask the assistant to execute a phase? *)
Definition is_execute (ev : event) : bool :=
  match ev with
  | EvExecutePhase _ _ => true
  | _ => false
  end.

(** Did the runner call the assistant at all? *)
Definition is_assistant_call (ev : event) : bool :=
  match ev with
  | EvExecutePhase _ _ | EvGetPhaseStatus => true
  | _ => false
  end.

(** [format_time]: its callers pass integers; [//] and [%] round down. *)
Definition format_time (seconds : Z) : string :=
  let hours := (seconds / 3600)%Z in
  let minutes := ((seconds mod 3600) / 60)%Z in
  let secs := (seconds mod 60)%Z in
  (fmt02d hours ++ ":" ++ fmt02d minutes ++ ":" ++ fmt02d secs)%string.

(** The line [Timer._update_timer] writes, cut or filled with spaces to the
    width of the terminal.  [len] and the slice count the characters of the
    text, which holds characters beyond ASCII: the text is the list of its
    characters, of whatever type, and [space] is the blank among them. *)
Definition fit_display {char : Type} (space : char) (timer_display : list char)
    (term_width : Z) : list char :=
  let display_len := len timer_display in
  if (display_len <? term_width)%Z
  then timer_display ++ repeat space (Z.to_nat (term_width - display_len))
  else if (term_width <? display_len)%Z
       then slice_to term_width timer_display
       else timer_display.

(** An entry of the proposed directory: its name and [p.stat().st_mtime]. *)
Record md_file : Type := mkMdFile { file_name : string; st_mtime : Q }.

(** [sorted(files, key=lambda p: p.stat().st_mtime, reverse=True)]: newest
    first; files of one age keep the order they came in. *)
Fixpoint insert_by_mtime (f : md_file) (sorted : list md_file) : list md_file :=
  match sorted with
  | [] => [f]
  | g :: rest =>
      if Qle_bool (st_mtime g) (st_mtime f) then f :: sorted
      else g :: insert_by_mtime f rest
  end.

Definition sorted_by_mtime (files : list md_file) : list md_file :=
  fold_right insert_by_mtime [] files.

(** [select_planning_doc]: [is_dir] is [os.path.isdir(proposed_dir)],
    [listing] what [glob("*.md")] yields, [selection] the line typed, already
    stripped, and [int_of] Python's [int] on strings ([None] for
    [ValueError]). *)
Definition select_planning_doc (is_dir : bool) (listing : list md_file)
    (selection : string) (int_of : string -> option Z) : option md_file :=
  if negb is_dir then None
  else
    let files := firstn 5 (sorted_by_mtime listing) in
    match files with
    | [] => None
    | _ :: _ =>
        let selection := if negb (str_truthy selection) then "1" else selection in
        match int_of selection with
        | None => None
        | Some n =>
            let idx := (n - 1)%Z in
            if ((0 <=? idx) && (idx <? len files))%Z
            then match getitem files idx with
                 | Ok f => Some f
                 | Raise _ => None
                 end
            else None
        end
    end.

End PhaseRunner.

(** ** Notions the properties are stated with *)

(** [s] starts with [p]: [s] is [p] followed by something. *)
Definition starts_with (s p : string) : Prop :=
  exists suffix, s = (p ++ suffix)%string.

(** The last [n] elements of a list, in their order. *)
Definition lastn {A : Type} (n : nat) (l : list A) : list A :=
  skipn (List.length l - n) l.

(** What [_call_claude] reads from the standard output of a run that
    completed with return code 0. *)
Definition structured_output_of (stdout_json : res json) : res json :=
  output <- stdout_json ;;
  last <- getlast output ;;
  getkey last "structured_output".

(** What [parse] returns for a watcher in state [st]. *)
Definition parse_result (w : Voice.env) (st : Voice.watcher) (text : string)
    : res (option Voice.ParsedInput) :=
  snd (snd (Voice.parse w Voice.default_context_size (Voice.message_history st) text)).

(** The prompt [parse] sends for [text] from a watcher in state [st]. *)
Definition prompt_for (st : Voice.watcher) (text : string) : Voice.prompt :=
  Voice.mkPrompt
    (Voice.build_context
       (Voice.add_message Voice.default_context_size (Voice.message_history st) text))
    text.

(** A parsed input the dispatcher can work through: the session prompt is a
    string or null and the type of every command is a string, as the
    dataclasses and [PARSE_SCHEMA] announce. *)
Definition dispatchable (parsed : Voice.ParsedInput) : bool :=
  match Voice.session_prompt parsed with
  | JStr _ | JNull => true
  | _ => false
  end
  && forallb (fun c => match Voice.type c with JStr _ => true | _ => false end)
       (Voice.commands parsed).

(** The calls of [send_to_terminal] for the text [s]. *)
Definition pbcopy (s : string) : Voice.command_line :=
  Voice.mkCommandLine ["pbcopy"] (Some s).

Definition paste : Voice.command_line :=
  Voice.mkCommandLine Voice.paste_script None.

Definition relay_events (w : Voice.env) (s : string) : list Voice.event :=
  Voice.EvRun (pbcopy s)
  :: (if (Voice.os_run w (pbcopy s) =? 0)%Z then [Voice.EvRun paste] else []).

(** *** Worlds to run the watcher in *)

(** The watched file holds [content]; the assistant gives [answer] to every
    prompt; every OS command succeeds; no other file exists. *)
Definition world (content : res string) (answer : Voice.run_outcome) : Voice.env :=
  {| Voice.watched_exists := true;
     Voice.watched_exists_again := true;
     Voice.watched_read_text := content;
     Voice.claude_run := fun _ => answer;
     Voice.os_run := fun _ => 0%Z;
     Voice.fs_exists := fun _ => false;
     Voice.fs_glob := fun _ _ => Ok [];
     Voice.fs_home := fun _ => None |}.

(** The assistant's standard output with [v] as the structured output of
    its last step. *)
Definition answering (v : json) : Voice.run_outcome :=
  Voice.Completed 0 (Ok (JArr [JObj [("type", JStr "system")];
                               JObj [("structured_output", v)]])).

(** A structured output without the required key [commands]. *)
Definition prompt_only_output : json := JObj [("sessionPrompt", JStr "go")].

(** The watched file holds ["hello"] and the assistant answers with
    [prompt_only_output]. *)
Definition prompt_only_world : Voice.env :=
  world (Ok "hello") (answering prompt_only_output).

(** A watcher that has seen ["hello"]. *)
Definition seen_hello : Voice.watcher := Voice.mkWatcher "hello" ["hello"].


(** The watched file is there but reading it fails. *)
Definition unreadable_world : Voice.env :=
  world (Raise OSError) (Voice.RunRaises TimeoutExpired).

Definition is_sleep (ev : Voice.event) : bool :=
  match ev with
  | Voice.EvSleep _ => true
  | _ => false
  end.

(** *** A disk to run the executor on *)

(** The match of one path part against a pattern in which a star stands for
    any run of characters. *)
Fixpoint fnmatch (pattern name : string) {struct pattern} : bool :=
  match pattern with
  | EmptyString => negb (str_truthy name)
  | String c pattern' =>
      if Ascii.eqb c star
      then (fix any (s : string) : bool :=
              fnmatch pattern' s
              || match s with
                 | EmptyString => false
                 | String _ s' => any s'
                 end) name
      else match name with
           | EmptyString => false
           | String d name' => Ascii.eqb d c && fnmatch pattern' name'
           end
  end.

(** [list(parent.glob(pattern))] for a pattern of one part on a disk given
    by the list of its paths: the entries of [parent] whose name matches. *)
Definition disk_glob (disk : list path) (parent : path) (pattern : string)
    : list path :=
  filter (fun p => str_truthy (name p)
                   && path_eqb (Py.parent p) parent
                   && fnmatch pattern (name p)) disk.

Definition disk_exists (disk : list path) (p : path) : bool :=
  existsb (path_eqb p) disk.

(** A disk with one draft. *)
Definition drafts_disk : list path :=
  [Path "/docs"; Path "/docs/a"; Path "/docs/a/blog.md"].

Definition drafts_world : Voice.env :=
  {| Voice.watched_exists := false;
     Voice.watched_exists_again := false;
     Voice.watched_read_text := Raise OSError;
     Voice.claude_run := fun _ => Voice.RunRaises TimeoutExpired;
     Voice.os_run := fun _ => 0%Z;
     Voice.fs_exists := disk_exists drafts_disk;
     Voice.fs_glob := fun parent pattern => Ok (disk_glob drafts_disk parent pattern);
     Voice.fs_home := fun _ => None |}.

(** *** Reports and answers to run the phase runner on *)

Definition two_phases : list PhaseRunner.Phase :=
  [PhaseRunner.mkPhase "Add tests" "completed";
   PhaseRunner.mkPhase "Fix bug" "pending"].

(** The assistant completes any phase it is given and then reports that all
    phases are complete; the clock stands at 0. *)
Definition obliging : PhaseRunner.env :=
  {| PhaseRunner.elapsed := 0;
     PhaseRunner.phase_run := fun _ _ =>
       PhaseRunner.Completed 0 (Ok (JObj [("success", JBool true)]));
     PhaseRunner.status_run :=
       PhaseRunner.Completed 0 (Ok (PhaseRunner.mkReport two_phases (-1))) |}.

(** The assistant reports that the phase failed. *)
Definition failing : PhaseRunner.env :=
  {| PhaseRunner.elapsed := 0;
     PhaseRunner.phase_run := fun _ _ =>
       PhaseRunner.Completed 0 (Ok (JObj [("success", JBool false)]));
     PhaseRunner.status_run :=
       PhaseRunner.Completed 0 (Ok (PhaseRunner.mkReport two_phases 1)) |}.

(** The assistant completes the phase and reports the second phase as the
    next one. *)
Definition continuing : PhaseRunner.env :=
  {| PhaseRunner.elapsed := 0;
     PhaseRunner.phase_run := PhaseRunner.phase_run obliging;
     PhaseRunner.status_run :=
       PhaseRunner.Completed 0 (Ok (PhaseRunner.mkReport two_phases 1)) |}.

(** The assistant completes the phase and reports an index past the end. *)
Definition overshooting : PhaseRunner.env :=
  {| PhaseRunner.elapsed := 0;
     PhaseRunner.phase_run := PhaseRunner.phase_run obliging;
     PhaseRunner.status_run :=
       PhaseRunner.Completed 0 (Ok (PhaseRunner.mkReport two_phases 2)) |}.

(** The clock stands at 5400 seconds. *)
Definition late : PhaseRunner.env :=
  {| PhaseRunner.elapsed := 5400;
     PhaseRunner.phase_run := PhaseRunner.phase_run obliging;
     PhaseRunner.status_run := PhaseRunner.status_run obliging |}.

(** [nextPhaseIndex] is a valid index into [phases]. *)
Definition valid_index (phases : list PhaseRunner.Phase) (i : Z) : Prop :=
  (0 <= i < len phases)%Z.

(** *** Notions for the rest of the code *)

(** The JSON object a parsed input comes from. *)
Definition to_dict (parsed : Voice.ParsedInput) : json :=
  JObj [("sessionPrompt", Voice.session_prompt parsed);
        ("commands",
         JArr (map (fun c => JObj [("type", Voice.type c); ("args", Voice.args c)])
                 (Voice.commands parsed)))].

Definition is_obj (v : json) : bool :=
  match v with
  | JObj _ => true
  | _ => false
  end.

(** The value under a key of an object, or a default. *)
Definition field (k : string) (default : json) (items : list (string * json)) : json :=
  match lookup k items with
  | Some v => v
  | None => default
  end.

(** The arrow key event of [_scroll]. *)
Definition arrow (key_code : string) : Voice.command_line :=
  Voice.mkCommandLine ["osascript"; "-e"; Voice.key_script key_code] None.

(** The key event of [_scroll] for the top and the bottom. *)
Definition jump (key_code : string) : Voice.command_line :=
  Voice.mkCommandLine
    ["osascript"; "-e"; (Voice.key_script key_code ++ " using command down")%string]
    None.



(** The watched file is there and reads as [content]. *)
Definition reads (w : Voice.env) (content : string) : Prop :=
  Voice.watched_exists w = true
  /\ Voice.watched_exists_again w = true
  /\ Voice.watched_read_text w = Ok content.

(** Every execution of a phase in a trace is the last event or is followed
    at once by a status query. *)
Fixpoint requeried (t : list PhaseRunner.event) : bool :=
  match t with
  | [] => true
  | PhaseRunner.EvExecutePhase _ _ :: rest =>
      match rest with
      | [] => true
      | PhaseRunner.EvGetPhaseStatus :: _ => requeried rest
      | _ :: _ => false
      end
  | _ :: rest => requeried rest
  end.

(** The events after the loop that change something: the move of the
    document, the commit, the sound. *)
Definition is_epilogue (ev : PhaseRunner.event) : bool :=
  match ev with
  | PhaseRunner.EvMoveSpec | PhaseRunner.EvGit _ | PhaseRunner.EvAfplay => true
  | _ => false
  end.

(** Reading a clock back: the seconds a text of the form [H:M:S] stands
    for. *)
Definition read_field (s : string) : option Z :=
  option_map Z.of_int (NilZero.int_of_string s).

Definition read_time (s : string) : option Z :=
  match split ":" s with
  | [h; m; sec] =>
      match read_field h, read_field m, read_field sec with
      | Some h, Some m, Some sec => Some (3600 * h + 60 * m + sec)%Z
      | _, _, _ => None
      end
  | _ => None
  end.

(** The command [from_dict] makes of an element of [commands]. *)
Definition decode_command (v : json) : Voice.Command :=
  match v with
  | JObj items =>
      Voice.mkCommand (field "type" (JStr "") items) (field "args" (JObj []) items)
  | _ => Voice.mkCommand (JStr "") (JObj [])
  end.

(** A value [dict.get] cannot hash: a list or a dict. *)
Definition unhashable (v : json) : bool :=
  match v with
  | JArr _ | JObj _ => true
  | _ => false
  end.

(** The commands of the three kinds, with their arguments. *)
Definition open_app_command (items : list (string * json)) : Voice.Command :=
  Voice.mkCommand (JStr "openApp") (JObj items).

Definition open_file_command (items : list (string * json)) : Voice.Command :=
  Voice.mkCommand (JStr "openFile") (JObj items).

Definition scroll_command (items : list (string * json)) : Voice.Command :=
  Voice.mkCommand (JStr "scroll") (JObj items).

(** The [open] calls of the executor. *)
Definition open_with (app target : string) : Voice.command_line :=
  Voice.mkCommandLine ["open"; "-a"; app; target] None.

Definition open_plain (target : string) : Voice.command_line :=
  Voice.mkCommandLine ["open"; target] None.

Definition launch (app : string) : Voice.command_line :=
  Voice.mkCommandLine ["open"; "-a"; app] None.

(** Did the OS command succeed? *)
Definition succeeds (w : Voice.env) (c : Voice.command_line) : bool :=
  (Voice.os_run w c =? 0)%Z.

(** A value [range] takes: an integer or a boolean. *)
Definition is_count (v : json) : bool :=
  match v with
  | JNum _ | JBool _ => true
  | _ => false
  end.

(** The direction and the amount [_scroll] works with. *)
Definition direction_of (items : list (string * json)) : json :=
  field "direction" (JStr "down") items.

Definition amount_of (items : list (string * json)) : json :=
  field "amount" (JNum 5) items.

(** An event that runs an OS command. *)
Definition is_run (ev : Voice.event) : bool :=
  match ev with
  | Voice.EvRun _ => true
  | _ => false
  end.

(** A computation whose events all run OS commands. *)
Definition runs_only {A : Type} (m : Voice.M A) : Prop :=
  forallb is_run (fst m) = true.

(** What [process_input] relays to the terminal for a session prompt. *)
Definition relay_of (w : Voice.env) (session_prompt : json) : list Voice.event :=
  match session_prompt with
  | JStr s => if str_truthy s then relay_events w s else []
  | _ => []
  end.



(** The assistant answers with one command, a scroll to the bottom, and no
    session prompt. *)
Definition scroll_bottom_output : json :=
  JObj [("sessionPrompt", JNull);
        ("commands",
         JArr [JObj [("type", JStr "scroll");
                     ("args", JObj [("direction", JStr "bottom")])]])].

Definition scroll_bottom_world : Voice.env :=
  world (Ok "go down") (answering scroll_bottom_output).


(** Every execution of a phase in a trace is followed at once by a status
    query. *)
Fixpoint always_requeried (t : list PhaseRunner.event) : bool :=
  match t with
  | [] => true
  | PhaseRunner.EvExecutePhase _ _ :: rest =>
      match rest with
      | PhaseRunner.EvGetPhaseStatus :: _ => always_requeried rest
      | _ => false
      end
  | _ :: rest => always_requeried rest
  end.

(** What follows the loop when all phases are complete. *)
Definition epilogue (move_on_complete : bool) : list PhaseRunner.event :=
  (if move_on_complete
   then [PhaseRunner.EvMoveSpec;
         PhaseRunner.EvGit ["git"; "add"];
         PhaseRunner.EvGit ["git"; "commit"; "-m";
                            "Move completed spec to docs/completed"]]
   else [])
  ++ [PhaseRunner.EvAfplay; PhaseRunner.EvAfplay].

(** A run of the assistant that ends well with [v] as its result. *)
Definition completes {A : Type} (v : A) : PhaseRunner.run_outcome A :=
  PhaseRunner.Completed 0 (Ok v).

(** [f] comes before [g] in the list of files: it is not older. *)
Definition not_older (f g : PhaseRunner.md_file) : Prop :=
  (PhaseRunner.st_mtime g <= PhaseRunner.st_mtime f)%Q.

(** The line the selection is read from: an empty line stands for 1. *)
Definition chosen_text (selection : string) : string :=
  if negb (str_truthy selection) then "1" else selection.

(** Three drafts, listed oldest first. *)
Definition three_drafts : list PhaseRunner.md_file :=
  [PhaseRunner.mkMdFile "old.md" 10;
   PhaseRunner.mkMdFile "new.md" 30;
   PhaseRunner.mkMdFile "mid.md" 20].

(** A timer text as the list of its code points: the stopwatch sign
    U+23F1, two blanks and [Phase]. *)
Definition timer_sample : list Z :=
  [9201; 32; 32; 80; 104; 97; 115; 101]%Z.

(** *** When the dispatch of a parsed input returns *)










(** A world in which every path exists and every command succeeds. *)
Definition full_world : Voice.env :=
  {| Voice.watched_exists := true;
     Voice.watched_exists_again := true;
     Voice.watched_read_text := Ok "";
     Voice.claude_run := fun _ => Voice.RunRaises TimeoutExpired;
     Voice.os_run := fun _ => 0%Z;
     Voice.fs_exists := fun _ => true;
     Voice.fs_glob := fun _ _ => Ok [];
     Voice.fs_home := fun _ => Some "/home/u" |}.

(** * Properties *)

(** ** Strings and slices *)

Section Strings.

Lemma startswith_append (p suffix : string) :
  startswith (p ++ suffix) p = true.
Proof.
  induction p as [|c p IH]; simpl; [reflexivity|].
  now rewrite Ascii.eqb_refl, IH.
Qed.

Lemma startswith_starts_with (s p : string) :
  startswith s p = true <-> starts_with s p.
Proof.
  split.
  - revert s. induction p as [|c p IH]; intros s H.
    + now exists s.
    + destruct s as [|d s]; simpl in H; [discriminate|].
      apply andb_true_iff in H. destruct H as [Hc Hs].
      apply Ascii.eqb_eq in Hc. subst d.
      destruct (IH s Hs) as [suffix ->]. now exists suffix.
  - intros [suffix ->]. apply startswith_append.
Qed.

Lemma str_slice_from_append (p suffix : string) :
  str_slice_from (String.length p) (p ++ suffix) = suffix.
Proof. induction p as [|c p IH]; simpl; auto. Qed.

Lemma str_truthy_false (s : string) : str_truthy s = false <-> s = "".
Proof. destruct s; simpl; split; intro H; congruence. Qed.

End Strings.

(** ** The rolling message history *)

Section History.

Lemma lastn_length {A : Type} (n : nat) (l : list A) :
  List.length (lastn n l) = Nat.min n (List.length l).
Proof. unfold lastn. rewrite length_skipn. lia. Qed.

Lemma lastn_all {A : Type} (n : nat) (l : list A) :
  (List.length l <= n)%nat -> lastn n l = l.
Proof.
  intro H. unfold lastn. replace (List.length l - n)%nat with 0%nat by lia.
  reflexivity.
Qed.

Lemma lastn_app_lastn {A : Type} (n : nat) (l k : list A) :
  lastn n (lastn n l ++ k) = lastn n (l ++ k).
Proof.
  unfold lastn.
  rewrite !length_app, length_skipn.
  rewrite !skipn_app, skipn_skipn, length_skipn.
  f_equal; f_equal; lia.
Qed.

(** One [add_message] keeps the last [context_size] messages of the history
    with the new message at its end. *)
Lemma add_message_lastn (context_size : Z) (h : list string) (m : string) :
  (0 < context_size)%Z ->
  Voice.add_message context_size h m = lastn (Z.to_nat context_size) (h ++ [m]).
Proof.
  intro Hc. unfold Voice.add_message, slice_from, len.
  destruct (context_size <? _)%Z eqn:E.
  - apply Z.ltb_lt in E.
    destruct (- context_size <? 0)%Z eqn:E'; [|apply Z.ltb_ge in E'; lia].
    unfold lastn. f_equal. lia.
  - apply Z.ltb_ge in E. symmetry. apply lastn_all. lia.
Qed.

Lemma add_messages_lastn (context_size : Z) (messages h : list string) :
  (0 < context_size)%Z ->
  (List.length h <= Z.to_nat context_size)%nat ->
  Voice.add_messages context_size h messages
  = lastn (Z.to_nat context_size) (h ++ messages).
Proof.
  intro Hc. revert h.
  induction messages as [|m ms IH]; intros h Hh; simpl.
  - rewrite app_nil_r. symmetry. now apply lastn_all.
  - unfold Voice.add_messages in *. simpl.
    rewrite IH.
    + rewrite add_message_lastn by assumption.
      rewrite lastn_app_lastn. now rewrite <- app_assoc.
    + rewrite add_message_lastn by assumption.
      rewrite lastn_length. lia.
Qed.

End History.

(** ** [extract_new_content] *)

Section ExtractNewContent.

(** C2: with [old] as the stored last content, [extract_new_content]
    applied to [new] returns [new[len(old):]] when [new] starts with [old]
    (the part of [new] that follows [old]), and [new] in full otherwise. *)
Theorem extract_new_content_suffix_or_all (old new : string) (history : list string) :
  let st := Voice.mkWatcher old history in
  (starts_with new old ->
     Voice.extract_new_content st new = str_slice_from (String.length old) new
     /\ new = (old ++ Voice.extract_new_content st new)%string)
  /\ (~ starts_with new old -> Voice.extract_new_content st new = new).
Proof.
  intro st. unfold Voice.extract_new_content, st. simpl. split.
  - intro H. apply startswith_starts_with in H as Hb. rewrite Hb.
    split; [reflexivity|].
    destruct H as [suffix ->]. now rewrite str_slice_from_append.
  - intro H. destruct (startswith new old) eqn:E; [|reflexivity].
    apply startswith_starts_with in E. contradiction.
Qed.

Lemma extract_new_content_suffix_or_all_witness :
  Voice.extract_new_content (Voice.mkWatcher "hello" []) "hello world" = " world"
  /\ Voice.extract_new_content (Voice.mkWatcher "hello" []) "help" = "help".
Proof.
  split.
  - destruct (extract_new_content_suffix_or_all "hello" "hello world" []) as [H _].
    destruct H as [H _]; [now exists " world"|].
    rewrite H. reflexivity.
  - destruct (extract_new_content_suffix_or_all "hello" "help" []) as [_ H].
    apply H. intros [suffix E]. discriminate E.
Defined.

End ExtractNewContent.

(** ** [add_message] and [parse]: the context window *)

Section ContextWindow.

Lemma add_message_bounded (h : list string) (m : string) :
  (len (Voice.add_message Voice.default_context_size h m) <= 10)%Z.
Proof.
  rewrite add_message_lastn by reflexivity.
  unfold len. rewrite lastn_length. simpl Z.to_nat. lia.
Qed.

(** C4: with capacity 10 the history of a parser never holds more than 10
    messages: after any run of [add_message] calls it is the last 10
    messages added, in the order they were added.  After the 11th message
    the history is the 2nd to the 11th message in their order, and the slot
    of the 1st is gone. *)
Theorem message_history_capacity (messages : list string) :
  let history := Voice.add_messages Voice.default_context_size [] messages in
  (len history <= 10)%Z
  /\ history = lastn 10 messages
  /\ (forall first rest,
        messages = first :: rest -> List.length rest = 10%nat ->
        history = rest /\ (~ In first rest -> ~ In first history)).
Proof.
  intro history.
  assert (E : history = lastn 10 messages).
  { unfold history.
    rewrite add_messages_lastn; [reflexivity | reflexivity | simpl; lia]. }
  split; [|split].
  - rewrite E. unfold len. rewrite lastn_length. lia.
  - exact E.
  - intros first rest -> Hlen.
    assert (E' : history = rest).
    { rewrite E. unfold lastn. simpl List.length. rewrite Hlen. reflexivity. }
    split; [exact E'|]. now rewrite E'.
Qed.

Lemma message_history_capacity_witness :
  Voice.add_messages Voice.default_context_size []
    ["m1"; "m2"; "m3"; "m4"; "m5"; "m6"; "m7"; "m8"; "m9"; "m10"; "m11"]
  = ["m2"; "m3"; "m4"; "m5"; "m6"; "m7"; "m8"; "m9"; "m10"; "m11"].
Proof.
  destruct (message_history_capacity
              ["m1"; "m2"; "m3"; "m4"; "m5"; "m6"; "m7"; "m8"; "m9"; "m10"; "m11"])
    as (_ & _ & H).
  destruct (H "m1" ["m2"; "m3"; "m4"; "m5"; "m6"; "m7"; "m8"; "m9"; "m10"; "m11"]
              eq_refl eq_refl) as [E _].
  exact E.
Defined.

Lemma lastn_app_short {A : Type} (n : nat) (l k : list A) :
  (List.length k <= n)%nat ->
  lastn n (l ++ k) = lastn (n - List.length k) l ++ k.
Proof.
  intro H. unfold lastn. rewrite skipn_app, length_app.
  replace (List.length l + List.length k - n - List.length l)%nat with 0%nat by lia.
  simpl. f_equal. f_equal. lia.
Qed.

Lemma call_claude_trace (w : Voice.env) (p : Voice.prompt) :
  exists v, Voice._call_claude w p = ([Voice.EvClaude p], Ok v).
Proof.
  unfold Voice._call_claude. simpl.
  destruct (Voice.claude_run w p) as [rc out|e]; simpl.
  - destruct (negb (rc =? 0)%Z); simpl; [eexists; reflexivity|].
    destruct (bind out _) as [v|e]; simpl; [eexists; reflexivity|].
    destruct e; eexists; reflexivity.
  - destruct e; eexists; reflexivity.
Qed.

Lemma parse_trace (w : Voice.env) (cs : Z) (h : list string) (msg : string) :
  let h' := Voice.add_message cs h msg in
  exists r, Voice.parse w cs h msg
            = (h', ([Voice.EvClaude (Voice.mkPrompt (Voice.build_context h') msg)], Ok r)).
Proof.
  intro h'. unfold Voice.parse. fold h'.
  destruct (call_claude_trace w (Voice.mkPrompt (Voice.build_context h') msg))
    as [v ->].
  simpl. destruct (truthy v); simpl; [|eexists; reflexivity].
  destruct (Voice.from_dict v); simpl; eexists; reflexivity.
Qed.

(** C10: [parse] puts the message at the end of the rolling history, trimmed
    to the last 10, before it calls the assistant: the one call it makes
    carries the context built from the new history.  The new history is the
    same whatever the assistant answers, so also when parsing fails; the
    message is then among the context messages of the next call. *)
Theorem parse_keeps_message_in_history (w : Voice.env) (h : list string) (msg : string) :
  let h' := Voice.add_message Voice.default_context_size h msg in
  fst (Voice.parse w Voice.default_context_size h msg) = h'
  /\ h' = lastn 10 (h ++ [msg])
  /\ fst (snd (Voice.parse w Voice.default_context_size h msg))
     = [Voice.EvClaude (Voice.mkPrompt (Voice.build_context h') msg)]
  /\ (forall w', fst (Voice.parse w' Voice.default_context_size h msg) = h')
  /\ (forall w' next,
        exists front,
          fst (Voice.parse w' Voice.default_context_size h' next)
          = front ++ [msg; next]
          /\ Voice.build_context (front ++ [msg; next])
             = join newline (map (fun m => ("- " ++ m)%string) (front ++ [msg]))).
Proof.
  intro h'.
  destruct (parse_trace w Voice.default_context_size h msg) as [r E].
  fold h' in E. rewrite E. simpl.
  split; [reflexivity|]. split; [now apply add_message_lastn|].
  split; [reflexivity|]. split; [reflexivity|].
  intros w' next.
  exists (lastn 8 h).
  assert (E' : Voice.add_message Voice.default_context_size h' next
               = lastn 8 h ++ [msg; next]).
  { unfold h'. rewrite !add_message_lastn by reflexivity.
    simpl Z.to_nat. rewrite lastn_app_lastn, <- app_assoc. simpl.
    now rewrite lastn_app_short by (simpl; lia). }
  split; [exact E'|].
  unfold Voice.build_context, len. rewrite length_app. simpl List.length.
  destruct (1 <? _)%Z eqn:L; [|apply Z.ltb_ge in L; lia].
  do 2 f_equal.
  change [msg; next] with ([msg] ++ [next]).
  now rewrite app_assoc, removelast_last.
Qed.

End ContextWindow.

(** ** [parse] and [process_input]: errors and the fallback *)

Section ParseErrors.

Lemma parse_result_eq (w : Voice.env) (st : Voice.watcher) (text : string) :
  parse_result w st text
  = Ok (match Voice.claude_run w (prompt_for st text) with
        | Voice.RunRaises _ => None
        | Voice.Completed returncode stdout_json =>
            if negb (returncode =? 0)%Z then None
            else match structured_output_of stdout_json with
                 | Raise _ => None
                 | Ok so =>
                     if truthy so
                     then match Voice.from_dict so with
                          | Ok parsed => Some parsed
                          | Raise _ => None
                          end
                     else None
                 end
        end).
Proof.
  unfold parse_result, Voice.parse, Voice._call_claude, prompt_for,
    structured_output_of.
  simpl.
  destruct (Voice.claude_run w _) as [rc out|e]; simpl.
  - destruct (negb (rc =? 0)%Z); simpl; [reflexivity|].
    destruct (bind out _) as [so|e]; simpl.
    + destruct (truthy so); simpl; [|reflexivity].
      destruct (Voice.from_dict so); reflexivity.
    + destruct e; reflexivity.
  - destruct e; reflexivity.
Qed.

Lemma process_input_eq (w : Voice.env) (st : Voice.watcher) (text : string) :
  exists r,
    parse_result w st text = Ok r
    /\ Voice.process_input w st text
       = (Voice.add_message Voice.default_context_size (Voice.message_history st) text,
          Voice.bindM ([Voice.EvClaude (prompt_for st text)], Ok r)
            (fun parsed =>
               match parsed with
               | None => Voice.send_to_terminal w (JStr text)
               | Some parsed =>
                   Voice.bindM
                     (Voice.forM (Voice.commands parsed)
                        (fun cmd => Voice.bindM (Voice.execute w cmd)
                                      (fun _ => Voice.ret tt)))
                     (fun _ =>
                        if truthy (Voice.session_prompt parsed)
                        then Voice.send_to_terminal w (Voice.session_prompt parsed)
                        else Voice.ret tt)
               end)).
Proof.
  unfold parse_result, Voice.process_input, prompt_for.
  destruct (parse_trace w Voice.default_context_size (Voice.message_history st) text)
    as [r E].
  rewrite E. simpl. exists r. split; reflexivity.
Qed.

Lemma send_to_terminal_str (w : Voice.env) (s : string) :
  Voice.send_to_terminal w (JStr s) = (relay_events w s, Ok tt).
Proof.
  unfold Voice.send_to_terminal, Voice.run_check, relay_events. simpl.
  fold (pbcopy s). fold paste.
  destruct (Voice.os_run w (pbcopy s) =? 0)%Z; simpl; [|reflexivity].
  destruct (Voice.os_run w paste =? 0)%Z; reflexivity.
Qed.

(** C7 (amended): nothing raised inside [parse] leaves it.  A run of the
    assistant that raises (a timeout among them) or ends with a return code
    other than 0, an output that is not JSON or has no structured output,
    and a structured output [from_dict] raises on, all make [parse] return
    [None].  Whenever [parse] returns [None], [process_input] copies the raw
    text as it is to the clipboard and pastes it into the terminal, and
    executes no command. *)
Theorem parse_failures_become_None (w : Voice.env) (st : Voice.watcher) (text : string) :
  let p := prompt_for st text in
  let result := parse_result w st text in
  (exists r, result = Ok r)
  /\ (forall e, Voice.claude_run w p = Voice.RunRaises e -> result = Ok None)
  /\ (forall rc out,
        Voice.claude_run w p = Voice.Completed rc out -> rc <> 0%Z ->
        result = Ok None)
  /\ (forall out e,
        Voice.claude_run w p = Voice.Completed 0 out ->
        structured_output_of out = Raise e ->
        result = Ok None)
  /\ (forall out so e,
        Voice.claude_run w p = Voice.Completed 0 out ->
        structured_output_of out = Ok so ->
        Voice.from_dict so = Raise e ->
        result = Ok None)
  /\ (result = Ok None ->
      snd (Voice.process_input w st text)
      = (Voice.EvClaude p :: relay_events w text, Ok tt)).
Proof.
  intros p result. unfold result, p.
  split; [|split; [|split; [|split; [|split]]]].
  - rewrite parse_result_eq. eexists; reflexivity.
  - intros e H. now rewrite parse_result_eq, H.
  - intros rc out H Hrc. rewrite parse_result_eq, H.
    apply Z.eqb_neq in Hrc. now rewrite Hrc.
  - intros out e H Hso. now rewrite parse_result_eq, H, Hso.
  - intros out so e H Hso Hfd. rewrite parse_result_eq, H, Hso, Hfd. simpl.
    now destruct (truthy so).
  - intro H. destruct (process_input_eq w st text) as (r & Hr & E).
    rewrite E. rewrite H in Hr. injection Hr as <-.
    simpl. now rewrite send_to_terminal_str.
Qed.

Lemma parse_failures_become_None_witness :
  snd (Voice.process_input (world (Ok "hello") (Voice.RunRaises TimeoutExpired))
         Voice.init "hello")
  = ([Voice.EvClaude (Voice.mkPrompt "(No prior context)" "hello");
      Voice.EvRun (pbcopy "hello"); Voice.EvRun paste], Ok tt).
Proof.
  destruct (parse_failures_become_None
              (world (Ok "hello") (Voice.RunRaises TimeoutExpired)) Voice.init "hello")
    as (_ & Hraise & _ & _ & _ & Hrelay).
  apply Hrelay. apply (Hraise TimeoutExpired). reflexivity.
Defined.

(** C7 as stated fails: a structured output that leaves out the required
    key [commands] does not fit [PARSE_SCHEMA], yet [from_dict] fills in the
    default and [parse] returns a parsed input; the watcher relays its
    session prompt, not the raw text. *)
Lemma schema_mismatch_is_parsed :
  Voice.fits_PARSE_SCHEMA prompt_only_output = false
  /\ parse_result prompt_only_world Voice.init "hello"
     = Ok (Some (Voice.mkParsedInput (JStr "go") []))
  /\ snd (Voice.process_input prompt_only_world Voice.init "hello")
     = ([Voice.EvClaude (Voice.mkPrompt "(No prior context)" "hello");
         Voice.EvRun (pbcopy "go"); Voice.EvRun paste], Ok tt).
Proof. repeat split. Qed.

End ParseErrors.

(** ** The watcher's loop *)

Section WatchLoop.

Lemma execute_str_total (w : Voice.env) (c : Voice.Command) (kind : string) :
  Voice.type c = JStr kind ->
  exists t b, Voice.execute w c = (t, Ok b).
Proof.
  intro H. unfold Voice.execute. rewrite H.
  destruct (Voice.handlers kind) as [handler|]; [|do 2 eexists; reflexivity].
  destruct (handler w (Voice.args c)) as [t [b|e]]; simpl;
    do 2 eexists; reflexivity.
Qed.



(** A structured output that fits [PARSE_SCHEMA] is parsed into an input the
    dispatcher can work through. *)
Lemma fits_command_parsed (l : list json) :
  forallb Voice.fits_command l = true ->
  exists cmds,
    mapM (fun cmd =>
            t <- get cmd "type" (JStr "") ;;
            a <- get cmd "args" (JObj []) ;;
            Ok (Voice.mkCommand t a)) l = Ok cmds
    /\ forallb (fun c => match Voice.type c with JStr _ => true | _ => false end) cmds
       = true.
Proof.
  induction l as [|v l IH]; intro H; simpl.
  - exists []. split; reflexivity.
  - simpl in H. apply andb_true_iff in H. destruct H as [Hv Hl].
    destruct (IH Hl) as (cmds & -> & Hc).
    destruct v as [| | | | | |items]; try discriminate. simpl in *.
    destruct (lookup "type" items) as [[| | | |kind| |]|]; try discriminate.
    destruct (lookup "args" items) as [[| | | | | |a]|]; try discriminate.
    simpl. eexists. split; [reflexivity|]. simpl. exact Hc.
Qed.

Lemma fits_schema_dispatchable (so : json) :
  Voice.fits_PARSE_SCHEMA so = true ->
  exists parsed, Voice.from_dict so = Ok parsed /\ dispatchable parsed = true.
Proof.
  intro H. destruct so as [| | | | | |items]; try discriminate.
  unfold Voice.from_dict. simpl in *.
  destruct (lookup "sessionPrompt" items) as [[| | | |s| |]|]; try discriminate;
    destruct (lookup "commands" items) as [[| | | | |l|]|]; try discriminate;
    destruct (fits_command_parsed l H) as (cmds & E & Hc);
    simpl; rewrite E; simpl; eexists; (split; [reflexivity|]);
    unfold dispatchable; simpl; exact Hc.
Qed.









(** The iterations that do sleep: the file is missing, or its content is
    the one seen before. *)
Lemma watch_iteration_missing (interval : Q) (w : Voice.env) (st : Voice.watcher) :
  Voice.watched_exists w = false ->
  Voice.watch_iteration interval w st
  = ([Voice.EvExists; Voice.EvSleep interval], Ok st).
Proof. intro H. unfold Voice.watch_iteration. now rewrite H. Qed.

Lemma watch_iteration_unchanged (interval : Q) (w : Voice.env) (st : Voice.watcher) :
  Voice.watched_exists w = true ->
  Voice.watched_exists_again w = true ->
  Voice.watched_read_text w = Ok (Voice.last_content st) ->
  Voice.watch_iteration interval w st
  = ([Voice.EvExists; Voice.EvExists; Voice.EvReadText; Voice.EvSleep interval],
     Ok st).
Proof.
  intros Hex Hex' Hread. unfold Voice.watch_iteration, Voice.read_file.
  rewrite Hex, Hex', Hread.
  cbn -[String.eqb]. now rewrite String.eqb_refl.
Qed.

(** The iteration that does not: the file is there and [read_file] returns
    [None]. *)
Lemma watch_iteration_unreadable (interval : Q) (w : Voice.env) (st : Voice.watcher)
    (e : exn) :
  Voice.watched_exists w = true ->
  Voice.watched_exists_again w = true ->
  Voice.watched_read_text w = Raise e ->
  Voice.watch_iteration interval w st
  = ([Voice.EvExists; Voice.EvExists; Voice.EvReadText], Ok st).
Proof.
  intros Hex Hex' Hread. unfold Voice.watch_iteration, Voice.read_file.
  now rewrite Hex, Hex', Hread.
Qed.

(** C9 fails on the code: when the file is there and reading it fails,
    [read_file] returns [None] and [continue] skips the sleep, so the next
    read follows at once.  Two such iterations in a row: *)
Lemma watch_unreadable_never_sleeps :
  Voice.watch Voice.default_interval [unreadable_world; unreadable_world] Voice.init
  = ([Voice.EvExists; Voice.EvExists; Voice.EvReadText;
      Voice.EvExists; Voice.EvExists; Voice.EvReadText],
     Ok Voice.init)
  /\ existsb is_sleep
       (fst (Voice.watch Voice.default_interval
               [unreadable_world; unreadable_world] Voice.init)) = false.
Proof. split; reflexivity. Qed.

End WatchLoop.

(** ** [_open_file] *)

Section OpenFile.

Variable w : Voice.env.

(** What [_open_file] refuses: no path, a wildcard pattern without a match,
    a resolved path that does not exist. *)
Lemma open_file_without_path (items : list (string * json)) :
  lookup "path" items = None ->
  Voice._open_file w (JObj items) = ([], Ok false).
Proof.
  intro H. unfold Voice._open_file. simpl. rewrite H.
  destruct (lookup "app" items); reflexivity.
Qed.

Lemma open_file_no_match (items : list (string * json)) (s : string) (expanded : path) :
  lookup "path" items = Some (JStr s) ->
  s <> "" ->
  Voice.expanduser w (Path s) = Ok expanded ->
  contains_char star s = true ->
  Voice.fs_glob w (parent expanded) (name expanded) = Ok [] ->
  Voice._open_file w (JObj items) = ([], Ok false).
Proof.
  intros Hp Hs He Hc Hg. unfold Voice._open_file, get. rewrite Hp.
  assert (Ht : str_truthy s = true) by (destruct s; [contradiction|reflexivity]).
  destruct (lookup "app" items);
    cbn -[contains_char parent name Path star]; rewrite Ht;
    cbn -[contains_char parent name Path star]; rewrite He;
    cbn -[contains_char parent name Path star]; rewrite Hc;
    cbn -[contains_char parent name Path star]; rewrite Hg; reflexivity.
Qed.

Lemma open_file_not_found (items : list (string * json)) (s : string) (expanded : path) :
  lookup "path" items = Some (JStr s) ->
  s <> "" ->
  Voice.expanduser w (Path s) = Ok expanded ->
  contains_char star s = false ->
  Voice.fs_exists w expanded = false ->
  Voice._open_file w (JObj items) = ([], Ok false).
Proof.
  intros Hp Hs He Hc Hx. unfold Voice._open_file, get. rewrite Hp.
  assert (Ht : str_truthy s = true) by (destruct s; [contradiction|reflexivity]).
  destruct (lookup "app" items);
    cbn -[contains_char parent name Path star]; rewrite Ht;
    cbn -[contains_char parent name Path star]; rewrite He;
    cbn -[contains_char parent name Path star]; rewrite Hc;
    cbn -[contains_char parent name Path star]; rewrite Hx; reflexivity.
Qed.

End OpenFile.

(** C8 fails on the code for a wildcard in a part of the path that is not
    the last: [_open_file] takes the parent of the whole path, star
    included, as a literal directory and globs only the name.  On a disk
    with [/docs/a/blog.md] the path [/docs/*/blog.md] finds nothing and the
    command fails, though the star matches the directory [a]; with the star
    in the last part the same file is found and opened. *)
Lemma open_file_wildcard_directory :
  disk_exists drafts_disk (Path "/docs/a/blog.md") = true
  /\ fnmatch "*" "a" = true
  /\ Voice.execute drafts_world
       (Voice.mkCommand (JStr "openFile") (JObj [("path", JStr "/docs/*/blog.md")]))
     = ([], Ok false)
  /\ Voice.execute drafts_world
       (Voice.mkCommand (JStr "openFile") (JObj [("path", JStr "/docs/a/*.md")]))
     = ([Voice.EvRun (Voice.mkCommandLine ["open"; "/docs/a/blog.md"] None)], Ok true).
Proof. repeat split. Qed.

(** ** The phase runner *)

Section Runner.

Import PhaseRunner.

Variable move_on_complete : bool.
Variable max_runtime_seconds : Z.

Lemma getitem_out_of_range {A : Type} (l : list A) (i : Z) :
  (len l <= i \/ i < - len l)%Z -> getitem l i = Raise IndexError.
Proof.
  intro H. unfold getitem.
  destruct (i <? 0)%Z eqn:E.
  - apply Z.ltb_lt in E.
    destruct H as [H|H]; [unfold len in H; lia|].
    replace (i + len l <? 0)%Z with true by (symmetry; apply Z.ltb_lt; lia).
    reflexivity.
  - apply Z.ltb_ge in E.
    destruct H as [H|H]; [|unfold len in H; lia].
    replace (len l <=? i)%Z with true by (symmetry; apply Z.leb_le; lia).
    now rewrite orb_true_r.
Qed.

(** After the iterations answered by [before] the loop is at the top of
    its next iteration, with [phases'] and [idx'] as its variables and [t] as
    the calls made so far: the run goes on from there. *)
Lemma main_loop_app (before rest : list env) (phases : list Phase) (idx : Z)
    (t : list event) (phases' : list Phase) (idx' : Z) :
  main_loop max_runtime_seconds before phases idx = (t, Unfinished phases' idx') ->
  idx' <> (-1)%Z
  /\ main_loop max_runtime_seconds (before ++ rest) phases idx
     = (t ++ fst (main_loop max_runtime_seconds rest phases' idx'),
        snd (main_loop max_runtime_seconds rest phases' idx')).
Proof.
  revert phases idx t.
  induction before as [|w before IH]; intros phases idx t H; simpl in H.
  - destruct (idx =? -1)%Z eqn:E; [discriminate|].
    injection H as <- <- <-.
    split; [now apply Z.eqb_neq|].
    simpl. now destruct (main_loop _ rest phases idx).
  - destruct (idx =? -1)%Z eqn:E; [discriminate|].
    simpl. rewrite E.
    destruct (loop_body max_runtime_seconds w phases idx) as [t0 [ph1 idx1| |term]];
      try discriminate.
    destruct (main_loop max_runtime_seconds before ph1 idx1) as [t1 e1] eqn:E1.
    injection H as <- ->.
    destruct (IH ph1 idx1 t1 E1) as [Hidx ->].
    split; [exact Hidx|]. simpl. now rewrite app_assoc.
Qed.

(** C6: when, at the top of an iteration of the main loop (the first or a
    later one), the time elapsed is at least the budget, the runner leaves
    the loop without any further call (no event follows those of the
    iterations before), and ends in the time limit state with exit code 0, a
    state other than the all complete and the failed ones. *)
Theorem time_limit_ends_the_run (before : list env) (w : env) (rest : list env)
    (phases : list Phase) (idx : Z)
    (t : list event) (phases' : list Phase) (idx' : Z) :
  main_loop max_runtime_seconds before phases idx = (t, Unfinished phases' idx') ->
  (inject_Z max_runtime_seconds <= elapsed w)%Q ->
  main_from_loop move_on_complete max_runtime_seconds (before ++ w :: rest) phases idx
  = (t, Some TimeLimitReached)
  /\ exit_code TimeLimitReached = 0%Z
  /\ TimeLimitReached <> AllComplete
  /\ TimeLimitReached <> AlreadyComplete
  /\ TimeLimitReached <> PhaseFailed
  /\ TimeLimitReached <> PhaseRaised
  /\ TimeLimitReached <> StatusError.
Proof.
  intros Htop Ht.
  split; [|repeat split; discriminate].
  destruct (main_loop_app before (w :: rest) _ _ _ _ _ Htop) as [Hidx E].
  unfold main_from_loop. rewrite E. simpl.
  apply Z.eqb_neq in Hidx. rewrite Hidx.
  unfold loop_body. apply Qle_bool_iff in Ht. rewrite Ht.
  simpl. now rewrite Hidx, app_nil_r.
Qed.

(** C5: when the execution of a phase raises, or returns a result whose
    [success] is false, the runner exits with code 1; the failed execution
    is the last call of the run: no other phase is tried and the failed one
    is not tried again. *)
Theorem failed_phase_ends_the_run (before : list env) (w : env) (rest : list env)
    (phases : list Phase) (idx : Z)
    (t : list event) (phases' : list Phase) (idx' : Z) (current_phase : Phase) :
  main_loop max_runtime_seconds before phases idx = (t, Unfinished phases' idx') ->
  ~ (inject_Z max_runtime_seconds <= elapsed w)%Q ->
  getitem phases' idx' = Ok current_phase ->
  let attempt := EvExecutePhase idx' (description current_phase) in
  (forall e,
     execute_phase w idx' (description current_phase) = Raise e ->
     main_from_loop move_on_complete max_runtime_seconds (before ++ w :: rest) phases idx
     = (t ++ [attempt], Some PhaseRaised))
  /\ (forall items,
        execute_phase w idx' (description current_phase) = Ok (JObj items) ->
        lookup "success" items = Some (JBool false) ->
        main_from_loop move_on_complete max_runtime_seconds (before ++ w :: rest) phases idx
        = (t ++ [attempt], Some PhaseFailed))
  /\ exit_code PhaseRaised = 1%Z
  /\ exit_code PhaseFailed = 1%Z.
Proof.
  intros Htop Ht Hget attempt.
  destruct (main_loop_app before (w :: rest) _ _ _ _ _ Htop) as [Hidx E].
  apply Z.eqb_neq in Hidx.
  assert (Hq : Qle_bool (inject_Z max_runtime_seconds) (elapsed w) = false).
  { destruct (Qle_bool _ _) eqn:Eq; [|reflexivity].
    apply Qle_bool_iff in Eq. contradiction. }
  repeat split.
  - intros e He. unfold main_from_loop. rewrite E. simpl. rewrite Hidx.
    unfold loop_body. rewrite Hq, Hget, He. reflexivity.
  - intros items He Hs. unfold main_from_loop. rewrite E. simpl. rewrite Hidx.
    unfold loop_body. rewrite Hq, Hget, He. simpl. rewrite Hs. reflexivity.
Qed.

(** C1 (amended): the runner does not compare [nextPhaseIndex] with the
    number of phases.  A report whose index is not -1 and lies at or above
    the number of phases, or below its negative, makes the runner halt
    before any phase is executed: on the first report with an uncaught
    [IndexError] (exit code 1) right after the status query; on a later
    report at the top of the next iteration, with the same error or, if the
    budget is used up, in the time limit state. *)
Theorem out_of_range_index_halts (bad_phases : list Phase) (bad_idx : Z) :
  bad_idx <> (-1)%Z ->
  (len bad_phases <= bad_idx \/ bad_idx < - len bad_phases)%Z ->
  (forall first ws,
     get_phase_status first = Ok (mkReport bad_phases bad_idx) ->
     main move_on_complete max_runtime_seconds first ws
     = ([EvGetPhaseStatus], Some (Uncaught IndexError)))
  /\ (forall before w rest phases idx t,
        main_loop max_runtime_seconds before phases idx
        = (t, Unfinished bad_phases bad_idx) ->
        main_from_loop move_on_complete max_runtime_seconds (before ++ w :: rest)
          phases idx
        = (t, Some (if Qle_bool (inject_Z max_runtime_seconds) (elapsed w)
                    then TimeLimitReached else Uncaught IndexError)))
  /\ exit_code (Uncaught IndexError) = 1%Z.
Proof.
  intros Hidx Hrange.
  pose proof (getitem_out_of_range bad_phases bad_idx Hrange) as Hget.
  apply Z.eqb_neq in Hidx.
  repeat split.
  - intros first ws Hfirst. unfold main. rewrite Hfirst. simpl.
    now rewrite Hidx, Hget.
  - intros before w rest phases idx t Htop.
    destruct (main_loop_app before (w :: rest) _ _ _ _ _ Htop) as [_ E].
    unfold main_from_loop. rewrite E. simpl. rewrite Hidx.
    unfold loop_body.
    destruct (Qle_bool _ _); simpl.
    + now rewrite Hidx, app_nil_r.
    + now rewrite Hget, app_nil_r.
Qed.

End Runner.

Section RunnerExamples.

Import PhaseRunner.

Lemma time_limit_ends_the_run_witness :
  main_from_loop false 5400 [continuing; late; obliging] two_phases 0
  = ([EvExecutePhase 0 "Add tests"; EvGetPhaseStatus; EvSleep 2],
     Some TimeLimitReached).
Proof.
  apply (time_limit_ends_the_run false 5400 [continuing] late [obliging]
           two_phases 0 _ two_phases 1).
  - reflexivity.
  - simpl. unfold Qle. simpl. lia.
Defined.

Lemma failed_phase_ends_the_run_witness :
  main_from_loop false 5400 [continuing; failing; obliging] two_phases 0
  = ([EvExecutePhase 0 "Add tests"; EvGetPhaseStatus; EvSleep 2;
      EvExecutePhase 1 "Fix bug"],
     Some PhaseFailed).
Proof.
  destruct (failed_phase_ends_the_run false 5400 [continuing] failing [obliging]
              two_phases 0
              [EvExecutePhase 0 "Add tests"; EvGetPhaseStatus; EvSleep 2]
              two_phases 1 (mkPhase "Fix bug" "pending")) as (_ & H & _).
  - reflexivity.
  - simpl. unfold Qle. simpl. lia.
  - reflexivity.
  - apply (H [("success", JBool false)]); reflexivity.
Defined.

Lemma out_of_range_index_halts_witness :
  main false 5400 (Completed 0 (Ok (mkReport two_phases 2))) [obliging]
  = ([EvGetPhaseStatus], Some (Uncaught IndexError))
  /\ main_from_loop false 5400 [overshooting; obliging] two_phases 0
     = ([EvExecutePhase 0 "Add tests"; EvGetPhaseStatus; EvSleep 2],
        Some (Uncaught IndexError)).
Proof.
  destruct (out_of_range_index_halts false 5400 two_phases 2) as (H & H' & _).
  - discriminate.
  - left. unfold len. simpl. lia.
  - split.
    + apply H. reflexivity.
    + apply (H' [overshooting] obliging [] two_phases 0%Z). reflexivity.
Defined.

(** C1 as stated fails: -2 is not a valid index into two phases and is not
    -1, yet the runner does not halt on this report.  Python counts a
    negative index from the end, and the runner has the assistant execute
    the first phase. *)
Lemma negative_index_is_executed :
  ~ valid_index two_phases (-2)
  /\ main false 5400 (Completed 0 (Ok (mkReport two_phases (-2)))) [obliging]
     = ([EvGetPhaseStatus; EvExecutePhase (-2) "Add tests"; EvGetPhaseStatus;
         EvAfplay; EvAfplay],
        Some AllComplete).
Proof.
  split; [|reflexivity].
  unfold valid_index. lia.
Qed.

End RunnerExamples.

(** * More of the code *)

(** ** [ParsedInput.from_dict] *)

Section FromDict.

Lemma mapM_commands_of_dicts (cmds : list Voice.Command) :
  mapM (fun cmd =>
          t <- get cmd "type" (JStr "") ;;
          a <- get cmd "args" (JObj []) ;;
          Ok (Voice.mkCommand t a))
    (map (fun c => JObj [("type", Voice.type c); ("args", Voice.args c)]) cmds)
  = Ok cmds.
Proof.
  induction cmds as [|[t a] cmds IH]; simpl; [reflexivity|].
  simpl in IH. now rewrite IH.
Qed.

(** X1: [from_dict] reads back every parsed input from the object with its
    session prompt under [sessionPrompt] and its commands, as objects with
    [type] and [args], under [commands]: nothing is lost or reordered. *)
Theorem from_dict_to_dict (parsed : Voice.ParsedInput) :
  Voice.from_dict (to_dict parsed) = Ok parsed.
Proof.
  destruct parsed as [sp cmds]. unfold Voice.from_dict, to_dict. simpl.
  now rewrite mapM_commands_of_dicts.
Qed.

Lemma get_obj (items : list (string * json)) (k : string) (default : json) :
  get (JObj items) k default = Ok (field k default items).
Proof. unfold get, field. now destruct (lookup k items). Qed.

Lemma mapM_commands_objects (l : list json) :
  forallb is_obj l = true ->
  mapM (fun cmd =>
          t <- get cmd "type" (JStr "") ;;
          a <- get cmd "args" (JObj []) ;;
          Ok (Voice.mkCommand t a)) l
  = Ok (map decode_command l).
Proof.
  induction l as [|v l IH]; intro H; simpl; [reflexivity|].
  simpl in H. apply andb_true_iff in H. destruct H as [Hv Hl].
  rewrite (IH Hl). destruct v; try discriminate. simpl. unfold field.
  destruct (lookup "type" items), (lookup "args" items); reflexivity.
Qed.

Lemma mapM_commands_other (l : list json) :
  forallb is_obj l = false ->
  mapM (fun cmd =>
          t <- get cmd "type" (JStr "") ;;
          a <- get cmd "args" (JObj []) ;;
          Ok (Voice.mkCommand t a)) l
  = Raise AttributeError.
Proof.
  induction l as [|v l IH]; intro H; simpl in *; [discriminate|].
  apply andb_false_iff in H.
  destruct v; try reflexivity.
  destruct H as [H|H]; [discriminate|].
  rewrite (IH H). simpl.
  destruct (lookup "type" items), (lookup "args" items); reflexivity.
Qed.

(** X2: what [from_dict] accepts.  A value that is not an object raises
    [AttributeError].  An object without [commands] gives no commands; one
    whose [commands] is a list gives one command per element, in order, with
    the type [""] and the args [{}] where an element leaves them out, when
    every element is an object, and raises [AttributeError] when one is
    not.  A missing [sessionPrompt] is [None]. *)
Theorem from_dict_accepts (data : json) :
  (is_obj data = false -> Voice.from_dict data = Raise AttributeError)
  /\ (forall items,
        data = JObj items -> lookup "commands" items = None ->
        Voice.from_dict data
        = Ok (Voice.mkParsedInput (field "sessionPrompt" JNull items) []))
  /\ (forall items l,
        data = JObj items -> lookup "commands" items = Some (JArr l) ->
        forallb is_obj l = true ->
        Voice.from_dict data
        = Ok (Voice.mkParsedInput (field "sessionPrompt" JNull items)
                (map decode_command l)))
  /\ (forall items l,
        data = JObj items -> lookup "commands" items = Some (JArr l) ->
        forallb is_obj l = false ->
        Voice.from_dict data = Raise AttributeError).
Proof.
  repeat split.
  - intro H. destruct data; try reflexivity. discriminate.
  - intros items -> H. unfold Voice.from_dict. rewrite !get_obj.
    unfold field at 1. rewrite H. reflexivity.
  - intros items l -> H Hl. unfold Voice.from_dict. rewrite !get_obj.
    unfold field at 1. rewrite H.
    cbn [bind iter]. now rewrite (mapM_commands_objects l Hl).
  - intros items l -> H Hl. unfold Voice.from_dict. rewrite !get_obj.
    unfold field at 1. rewrite H.
    cbn [bind iter]. now rewrite (mapM_commands_other l Hl).
Qed.

Lemma from_dict_accepts_witness :
  Voice.from_dict (JNum 3) = Raise AttributeError
  /\ Voice.from_dict (JObj [("sessionPrompt", JStr "go")])
     = Ok (Voice.mkParsedInput (JStr "go") [])
  /\ Voice.from_dict (JObj [("commands", JArr [JObj [("type", JStr "scroll")]])])
     = Ok (Voice.mkParsedInput JNull [Voice.mkCommand (JStr "scroll") (JObj [])])
  /\ Voice.from_dict (JObj [("commands", JArr [JObj []; JStr "scroll"])])
     = Raise AttributeError.
Proof.
  split; [|split; [|split]].
  - apply (from_dict_accepts (JNum 3)). reflexivity.
  - destruct (from_dict_accepts (JObj [("sessionPrompt", JStr "go")]))
      as (_ & H & _).
    apply (H [("sessionPrompt", JStr "go")]); reflexivity.
  - destruct (from_dict_accepts
                (JObj [("commands", JArr [JObj [("type", JStr "scroll")]])]))
      as (_ & _ & H & _).
    apply (H [("commands", JArr [JObj [("type", JStr "scroll")]])]
             [JObj [("type", JStr "scroll")]]); reflexivity.
  - destruct (from_dict_accepts (JObj [("commands", JArr [JObj []; JStr "scroll"])]))
      as (_ & _ & _ & H).
    apply (H [("commands", JArr [JObj []; JStr "scroll"])] [JObj []; JStr "scroll"]);
      reflexivity.
Defined.

End FromDict.

(** ** The parser's context *)

Section ParserContext.

(** X3: with the capacity 10, the context of a call holds the 9 messages
    before the latest one, not 10: the latest message takes a slot of the
    history before the context is cut from it.  With no message before, the
    context is the text for no prior context. *)
Theorem parse_context_is_nine_messages (w : Voice.env) (h : list string) (msg : string) :
  fst (snd (Voice.parse w Voice.default_context_size h msg))
  = [Voice.EvClaude
       (Voice.mkPrompt
          (match lastn 9 h with
           | [] => "(No prior context)"
           | earlier => join newline (map (fun m => ("- " ++ m)%string) earlier)
           end)
          msg)]
  /\ (List.length (lastn 9 h) <= 9)%nat.
Proof.
  split; [|rewrite lastn_length; lia].
  destruct (parse_trace w Voice.default_context_size h msg) as [r ->]. simpl.
  do 3 f_equal.
  rewrite add_message_lastn by reflexivity. simpl Z.to_nat.
  rewrite lastn_app_short by (simpl; lia). simpl Nat.sub.
  unfold Voice.build_context, len. rewrite length_app. simpl List.length.
  rewrite removelast_last.
  destruct (lastn 9 h) as [|m earlier] eqn:E; [reflexivity|].
  simpl List.length.
  destruct (1 <? _)%Z eqn:L; [reflexivity|apply Z.ltb_ge in L; lia].
Qed.

(** X4: a parser created with the capacity 0 never drops a message:
    [history[-0:]] is the whole history. *)
Theorem capacity_zero_keeps_everything (h messages : list string) :
  Voice.add_messages 0 h messages = h ++ messages.
Proof.
  revert h. induction messages as [|m ms IH]; intro h; simpl.
  - now rewrite app_nil_r.
  - unfold Voice.add_messages in *. simpl. rewrite IH.
    unfold Voice.add_message, slice_from. simpl.
    destruct (0 <? len (h ++ [m]))%Z; now rewrite <- app_assoc.
Qed.

End ParserContext.

(** ** [CommandExecutor] *)

Section Executor.

Variable w : Voice.env.

Lemma str_truthy_nonempty (s : string) : s <> "" -> str_truthy s = true.
Proof. destruct s; [contradiction|reflexivity]. Qed.

(** X5: [execute] lets an exception out only for a command whose type
    cannot be hashed (a list or a dict): then it raises [TypeError] before
    anything is run.  For every other command it returns a boolean, and for
    a type that is not one of the three registered kinds that boolean is
    [False] and nothing is run. *)
Theorem execute_raises_only_unhashable (c : Voice.Command) :
  (unhashable (Voice.type c) = true -> Voice.execute w c = ([], Raise TypeError))
  /\ (unhashable (Voice.type c) = false ->
      exists t b, Voice.execute w c = (t, Ok b))
  /\ (forall kind,
        Voice.type c = JStr kind ->
        kind <> "openApp" -> kind <> "openFile" -> kind <> "scroll" ->
        Voice.execute w c = ([], Ok false))
  /\ (unhashable (Voice.type c) = false ->
      (forall kind, Voice.type c <> JStr kind) ->
      Voice.execute w c = ([], Ok false)).
Proof.
  repeat split.
  - intro H. unfold Voice.execute.
    destruct (Voice.type c); try discriminate; reflexivity.
  - intro H. destruct (Voice.type c) as [| | | |kind| |] eqn:E; try discriminate;
      try (unfold Voice.execute; rewrite E; do 2 eexists; reflexivity).
    exact (execute_str_total w c kind E).
  - intros kind E H1 H2 H3. unfold Voice.execute. rewrite E. unfold Voice.handlers.
    apply String.eqb_neq in H1, H2, H3. now rewrite H1, H2, H3.
  - intros H Hk. unfold Voice.execute.
    destruct (Voice.type c) as [| | | |kind| |];
      try discriminate; try reflexivity.
    now destruct (Hk kind).
Qed.

(** X6: an [openApp] command without an [app], or with an empty one, is
    refused and nothing is run; with an application name, [open -a] is run
    once with that name and the command succeeds exactly when [open] does. *)
Theorem open_app_runs_open (items : list (string * json)) :
  (truthy (field "app" JNull items) = false ->
   Voice.execute w (open_app_command items) = ([], Ok false))
  /\ (forall app,
        lookup "app" items = Some (JStr app) -> app <> "" ->
        Voice.execute w (open_app_command items)
        = ([Voice.EvRun (launch app)], Ok (succeeds w (launch app)))).
Proof.
  unfold open_app_command, Voice.execute, succeeds, launch. simpl.
  unfold Voice._open_app. rewrite get_obj. split.
  - intro H. simpl. now rewrite H.
  - intros app H Hne. unfold field. rewrite H. simpl.
    rewrite (str_truthy_nonempty app Hne). unfold Voice.run_check. simpl.
    now destruct (Voice.os_run w _ =? 0)%Z.
Qed.

Lemma bindM_lift_ok {A B : Type} (a : A) (k : A -> Voice.M B) :
  Voice.bindM (Voice.lift (Ok a)) k = k a.
Proof. unfold Voice.bindM, Voice.lift. now destruct (k a). Qed.

Lemma run_check_eq (c : Voice.command_line) :
  Voice.run_check w c
  = ([Voice.EvRun c], if succeeds w c then Ok tt else Raise CalledProcessError).
Proof.
  unfold Voice.run_check, succeeds. simpl.
  now destruct (Voice.os_run w c =? 0)%Z.
Qed.

Lemma forM_repeat_run (c : Voice.command_line) (n : nat) :
  Voice.forM (repeat tt n) (fun _ => Voice.run_check w c)
  = if succeeds w c then (repeat (Voice.EvRun c) n, Ok tt)
    else match n with
         | O => ([], Ok tt)
         | S _ => ([Voice.EvRun c], Raise CalledProcessError)
         end.
Proof.
  induction n as [|n IH]; simpl.
  - now destruct (succeeds w c).
  - rewrite IH, run_check_eq. now destruct (succeeds w c).
Qed.

Lemma scroll_eq (items : list (string * json)) :
  Voice._scroll w (JObj items)
  = let direction := direction_of items in
    let arrows (key_code : string) : Voice.M bool :=
      Voice.bindM (Voice.range (amount_of items))
        (fun times =>
           Voice.bindM (Voice.forM times (fun _ => Voice.run_check w (arrow key_code)))
             (fun _ => Voice.ret true)) in
    if is_str direction "up" then arrows "126"
    else if is_str direction "down" then arrows "125"
    else if is_str direction "top"
         then Voice.bindM (Voice.run_check w (jump "126")) (fun _ => Voice.ret true)
         else if is_str direction "bottom"
              then Voice.bindM (Voice.run_check w (jump "125")) (fun _ => Voice.ret true)
              else Voice.ret false.
Proof.
  unfold Voice._scroll. rewrite !get_obj, !bindM_lift_ok. reflexivity.
Qed.

Lemma execute_scroll (items : list (string * json)) :
  Voice.execute w (scroll_command items)
  = Voice.tryM (Voice._scroll w (JObj items)) (fun _ => Voice.ret false).
Proof. reflexivity. Qed.

(** X7: scrolling up or down (down when no direction is given) by an
    integer amount (5 when none is given) sends arrow key events of that
    direction and nothing else, never more of them than the amount; when the
    key events succeed it sends exactly that many and succeeds, and for an
    amount of 0 or less it sends none and succeeds. *)
Theorem scroll_arrows (items : list (string * json)) (key : string) (n : Z) :
  (direction_of items = JStr "up" /\ key = "126"
   \/ direction_of items = JStr "down" /\ key = "125") ->
  amount_of items = JNum n ->
  (succeeds w (arrow key) = true ->
   Voice.execute w (scroll_command items)
   = (repeat (Voice.EvRun (arrow key)) (Z.to_nat n), Ok true))
  /\ ((n <= 0)%Z -> Voice.execute w (scroll_command items) = ([], Ok true))
  /\ (exists k,
        (k <= Z.to_nat n)%nat
        /\ fst (Voice.execute w (scroll_command items))
           = repeat (Voice.EvRun (arrow key)) k).
Proof.
  intros Hd Ha. rewrite execute_scroll, scroll_eq. cbv zeta.
  rewrite Ha. unfold Voice.range.
  assert (E : Voice.tryM
                (Voice.bindM (Voice.ret (repeat tt (Z.to_nat n)))
                   (fun times =>
                      Voice.bindM
                        (Voice.forM times (fun _ => Voice.run_check w (arrow key)))
                        (fun _ => Voice.ret true)))
                (fun _ => Voice.ret false)
              = if succeeds w (arrow key)
                then (repeat (Voice.EvRun (arrow key)) (Z.to_nat n), Ok true)
                else match Z.to_nat n with
                     | O => ([], Ok true)
                     | S _ => ([Voice.EvRun (arrow key)], Ok false)
                     end).
  { cbn [Voice.bindM Voice.ret]. rewrite forM_repeat_run.
    destruct (succeeds w (arrow key)).
    - simpl. now rewrite !app_nil_r.
    - now destruct (Z.to_nat n). }
  assert (G : Voice.tryM
                (if is_str (direction_of items) "up"
                 then Voice.bindM (Voice.ret (repeat tt (Z.to_nat n)))
                        (fun times =>
                           Voice.bindM
                             (Voice.forM times
                                (fun _ => Voice.run_check w (arrow "126")))
                             (fun _ => Voice.ret true))
                 else if is_str (direction_of items) "down"
                      then Voice.bindM (Voice.ret (repeat tt (Z.to_nat n)))
                             (fun times =>
                                Voice.bindM
                                  (Voice.forM times
                                     (fun _ => Voice.run_check w (arrow "125")))
                                  (fun _ => Voice.ret true))
                      else if is_str (direction_of items) "top"
                           then Voice.bindM (Voice.run_check w (jump "126"))
                                  (fun _ => Voice.ret true)
                           else if is_str (direction_of items) "bottom"
                                then Voice.bindM (Voice.run_check w (jump "125"))
                                       (fun _ => Voice.ret true)
                                else Voice.ret false)
                (fun _ => Voice.ret false)
              = if succeeds w (arrow key)
                then (repeat (Voice.EvRun (arrow key)) (Z.to_nat n), Ok true)
                else match Z.to_nat n with
                     | O => ([], Ok true)
                     | S _ => ([Voice.EvRun (arrow key)], Ok false)
                     end).
  { destruct Hd as [[Hd ->]|[Hd ->]]; rewrite Hd; simpl is_str; cbv iota;
      exact E. }
  rewrite G. clear E G. split; [|split].
  - intros ->. reflexivity.
  - intro Hn. replace (Z.to_nat n) with 0%nat by lia.
    now destruct (succeeds w (arrow key)).
  - destruct (succeeds w (arrow key)).
    + exists (Z.to_nat n). split; [lia|reflexivity].
    + destruct (Z.to_nat n) as [|m].
      * exists 0%nat. split; [lia|reflexivity].
      * exists 1%nat. split; [lia|reflexivity].
Qed.

(** X8: scrolling to the top or to the bottom sends one key event with the
    command key held, whatever the amount is (even one that is no number),
    and succeeds exactly when that event does. *)
Theorem scroll_jumps (items : list (string * json)) :
  (direction_of items = JStr "top" ->
   Voice.execute w (scroll_command items)
   = ([Voice.EvRun (jump "126")], Ok (succeeds w (jump "126"))))
  /\ (direction_of items = JStr "bottom" ->
      Voice.execute w (scroll_command items)
      = ([Voice.EvRun (jump "125")], Ok (succeeds w (jump "125")))).
Proof.
  rewrite execute_scroll, scroll_eq. cbv zeta.
  split; intros ->; simpl is_str; cbv iota; rewrite run_check_eq;
    destruct (succeeds w _); reflexivity.
Qed.

(** X9: a scroll in a direction other than up, down, top and bottom fails
    and sends nothing; so does a scroll up or down whose amount is no
    integer. *)
Theorem scroll_refuses (items : list (string * json)) :
  (is_str (direction_of items) "up" = false ->
   is_str (direction_of items) "down" = false ->
   is_str (direction_of items) "top" = false ->
   is_str (direction_of items) "bottom" = false ->
   Voice.execute w (scroll_command items) = ([], Ok false))
  /\ (is_str (direction_of items) "up" || is_str (direction_of items) "down" = true ->
      is_count (amount_of items) = false ->
      Voice.execute w (scroll_command items) = ([], Ok false)).
Proof.
  rewrite execute_scroll, scroll_eq. cbv zeta.
  split.
  - intros -> -> -> ->. reflexivity.
  - intros Hd Ha.
    assert (E : Voice.range (amount_of items) = ([], Raise TypeError)).
    { destruct (amount_of items); try discriminate; reflexivity. }
    rewrite E.
    destruct (is_str (direction_of items) "up"); [reflexivity|].
    destruct (is_str (direction_of items) "down"); [reflexivity|discriminate].
Qed.

Lemma execute_open_file (items : list (string * json)) :
  Voice.execute w (open_file_command items)
  = Voice.tryM (Voice._open_file w (JObj items)) (fun _ => Voice.ret false).
Proof. reflexivity. Qed.

(** [_open_file] once the path is resolved to [target]. *)
Lemma open_file_resolved (items : list (string * json)) (s : string)
    (expanded target : path) :
  lookup "path" items = Some (JStr s) ->
  s <> "" ->
  Voice.expanduser w (Path s) = Ok expanded ->
  (contains_char star s = false /\ target = expanded
   \/ contains_char star s = true
      /\ exists others,
           Voice.fs_glob w (parent expanded) (name expanded) = Ok (target :: others)) ->
  Voice._open_file w (JObj items)
  = if negb (Voice.fs_exists w target) then Voice.ret false
    else Voice.bindM
           (if truthy (field "app" JNull items)
            then Voice.bindM (Voice.as_arg (field "app" JNull items))
                   (fun a => Voice.run_check w (open_with a (path_str target)))
            else Voice.run_check w (open_plain (path_str target)))
           (fun _ => Voice.ret true).
Proof.
  intros Hp Hs He Hr.
  unfold Voice._open_file. rewrite !get_obj, !bindM_lift_ok.
  unfold field at 1 2. rewrite Hp.
  cbn [truthy]. rewrite (str_truthy_nonempty s Hs). cbn [negb].
  rewrite He, bindM_lift_ok.
  destruct Hr as [[Hc ->]|[Hc [others Hg]]]; rewrite Hc.
  - unfold Voice.ret at 1. cbn [Voice.bindM].
    destruct (negb (Voice.fs_exists w expanded)); [reflexivity|].
    unfold open_with, open_plain.
    now destruct (Voice.bindM _ _) as [t r].
  - rewrite Hg, bindM_lift_ok. unfold Voice.ret at 1. cbn [Voice.bindM].
    destruct (negb (Voice.fs_exists w target)); [reflexivity|].
    unfold open_with, open_plain.
    now destruct (Voice.bindM _ _) as [t r].
Qed.

(** X10: an [openFile] command whose path resolves to an existing file runs
    [open] once on that file, through the named application when a
    non-empty [app] is given, and succeeds exactly when [open] does.  A
    path without a star resolves to itself, home directory expanded; a path
    with a star to the first match of its last part in its parent
    directory. *)
Theorem open_file_opens (items : list (string * json)) (s : string)
    (expanded target : path) :
  lookup "path" items = Some (JStr s) ->
  s <> "" ->
  Voice.expanduser w (Path s) = Ok expanded ->
  (contains_char star s = false /\ target = expanded
   \/ contains_char star s = true
      /\ exists others,
           Voice.fs_glob w (parent expanded) (name expanded) = Ok (target :: others)) ->
  Voice.fs_exists w target = true ->
  (truthy (field "app" JNull items) = false ->
   Voice.execute w (open_file_command items)
   = ([Voice.EvRun (open_plain (path_str target))],
      Ok (succeeds w (open_plain (path_str target)))))
  /\ (forall app,
        lookup "app" items = Some (JStr app) -> app <> "" ->
        Voice.execute w (open_file_command items)
        = ([Voice.EvRun (open_with app (path_str target))],
           Ok (succeeds w (open_with app (path_str target))))).
Proof.
  intros Hp Hs He Hr Hx.
  rewrite execute_open_file, (open_file_resolved items s expanded target Hp Hs He Hr).
  rewrite Hx. cbn [negb]. split.
  - intros ->. rewrite run_check_eq. now destruct (succeeds w _).
  - intros app Ha Hne. unfold field. rewrite Ha.
    cbn [truthy]. rewrite (str_truthy_nonempty app Hne).
    cbn [Voice.as_arg]. unfold Voice.ret at 1. cbn [Voice.bindM].
    rewrite run_check_eq. now destruct (succeeds w _).
Qed.

(** X11: what [_open_file] refuses, each time without running anything: a
    command without a path, a path with a star that matches nothing, and a
    resolved path that does not exist. *)
Theorem open_file_refuses (items : list (string * json)) :
  (lookup "path" items = None ->
   Voice.execute w (open_file_command items) = ([], Ok false))
  /\ (forall s expanded,
        lookup "path" items = Some (JStr s) -> s <> "" ->
        Voice.expanduser w (Path s) = Ok expanded ->
        contains_char star s = true ->
        Voice.fs_glob w (parent expanded) (name expanded) = Ok [] ->
        Voice.execute w (open_file_command items) = ([], Ok false))
  /\ (forall s expanded target,
        lookup "path" items = Some (JStr s) -> s <> "" ->
        Voice.expanduser w (Path s) = Ok expanded ->
        (contains_char star s = false /\ target = expanded
         \/ contains_char star s = true
            /\ exists others,
                 Voice.fs_glob w (parent expanded) (name expanded)
                 = Ok (target :: others)) ->
        Voice.fs_exists w target = false ->
        Voice.execute w (open_file_command items) = ([], Ok false)).
Proof.
  repeat split.
  - intro H. rewrite execute_open_file.
    now rewrite (open_file_without_path w items H).
  - intros s expanded Hp Hs He Hc Hg. rewrite execute_open_file.
    now rewrite (open_file_no_match w items s expanded Hp Hs He Hc Hg).
  - intros s expanded target Hp Hs He Hr Hx. rewrite execute_open_file.
    rewrite (open_file_resolved items s expanded target Hp Hs He Hr).
    now rewrite Hx.
Qed.

End Executor.

Section ExecutorExamples.

Lemma execute_raises_only_unhashable_witness :
  Voice.execute drafts_world (Voice.mkCommand (JArr []) (JObj []))
  = ([], Raise TypeError)
  /\ Voice.execute drafts_world (Voice.mkCommand (JStr "closeApp") (JObj []))
     = ([], Ok false)
  /\ Voice.execute drafts_world (Voice.mkCommand JNull (JObj [])) = ([], Ok false).
Proof.
  destruct (execute_raises_only_unhashable drafts_world
              (Voice.mkCommand (JArr []) (JObj []))) as (H1 & _).
  destruct (execute_raises_only_unhashable drafts_world
              (Voice.mkCommand (JStr "closeApp") (JObj []))) as (_ & _ & H2 & _).
  destruct (execute_raises_only_unhashable drafts_world
              (Voice.mkCommand JNull (JObj []))) as (_ & _ & _ & H3).
  split; [|split].
  - apply H1. reflexivity.
  - apply (H2 "closeApp"); [reflexivity|discriminate..].
  - apply H3; [reflexivity|discriminate].
Defined.

Lemma open_app_runs_open_witness :
  Voice.execute drafts_world (open_app_command [("app", JStr "")]) = ([], Ok false)
  /\ Voice.execute drafts_world (open_app_command [("app", JStr "Typora")])
     = ([Voice.EvRun (launch "Typora")], Ok true).
Proof.
  split.
  - apply (open_app_runs_open drafts_world [("app", JStr "")]). reflexivity.
  - destruct (open_app_runs_open drafts_world [("app", JStr "Typora")]) as [_ H].
    apply (H "Typora"); [reflexivity|discriminate].
Defined.

Lemma scroll_arrows_witness :
  Voice.execute drafts_world (scroll_command [])
  = (repeat (Voice.EvRun (arrow "125")) 5, Ok true)
  /\ Voice.execute drafts_world
       (scroll_command [("direction", JStr "up"); ("amount", JNum (-2))])
     = ([], Ok true).
Proof.
  assert (Hdown : direction_of [] = JStr "up" /\ "125" = "126"
                  \/ direction_of [] = JStr "down" /\ "125" = "125")
    by (right; split; reflexivity).
  assert (Hup : direction_of [("direction", JStr "up"); ("amount", JNum (-2))]
                = JStr "up" /\ "126" = "126"
                \/ direction_of [("direction", JStr "up"); ("amount", JNum (-2))]
                   = JStr "down" /\ "126" = "125")
    by (left; split; reflexivity).
  destruct (scroll_arrows drafts_world [] "125" 5 Hdown eq_refl) as (H & _).
  destruct (scroll_arrows drafts_world
              [("direction", JStr "up"); ("amount", JNum (-2))] "126" (-2)
              Hup eq_refl) as (_ & H' & _).
  split.
  - apply H. reflexivity.
  - apply H'. lia.
Defined.

Lemma scroll_jumps_witness :
  Voice.execute drafts_world
    (scroll_command [("direction", JStr "bottom"); ("amount", JStr "far")])
  = ([Voice.EvRun (jump "125")], Ok true).
Proof.
  destruct (scroll_jumps drafts_world
              [("direction", JStr "bottom"); ("amount", JStr "far")]) as [_ H].
  apply H. reflexivity.
Defined.

Lemma scroll_refuses_witness :
  Voice.execute drafts_world (scroll_command [("direction", JStr "left")])
  = ([], Ok false)
  /\ Voice.execute drafts_world (scroll_command [("amount", JStr "5")])
     = ([], Ok false).
Proof.
  destruct (scroll_refuses drafts_world [("direction", JStr "left")]) as [H _].
  destruct (scroll_refuses drafts_world [("amount", JStr "5")]) as [_ H'].
  split.
  - apply H; reflexivity.
  - apply H'; reflexivity.
Defined.

Lemma open_file_opens_witness :
  Voice.execute drafts_world
    (open_file_command [("path", JStr "/docs/a/*.md"); ("app", JStr "Typora")])
  = ([Voice.EvRun (open_with "Typora" "/docs/a/blog.md")], Ok true)
  /\ Voice.execute full_world (open_file_command [("path", JStr "//docs/a/blog.md")])
     = ([Voice.EvRun (open_plain "//docs/a/blog.md")], Ok true)
  /\ Voice.execute full_world (open_file_command [("path", JStr "~/notes//b.md")])
     = ([Voice.EvRun (open_plain "/home/u/notes/b.md")], Ok true).
Proof.
  assert (Hs : "/docs/a/*.md" <> "") by discriminate.
  assert (Hr : contains_char star "/docs/a/*.md" = false
               /\ Path "/docs/a/blog.md" = Path "/docs/a/*.md"
               \/ contains_char star "/docs/a/*.md" = true
                  /\ exists others,
                       Voice.fs_glob drafts_world (parent (Path "/docs/a/*.md"))
                         (name (Path "/docs/a/*.md"))
                       = Ok (Path "/docs/a/blog.md" :: others)).
  { right. split; [reflexivity|]. exists []. reflexivity. }
  destruct (open_file_opens drafts_world
              [("path", JStr "/docs/a/*.md"); ("app", JStr "Typora")]
              "/docs/a/*.md" (Path "/docs/a/*.md") (Path "/docs/a/blog.md")
              eq_refl Hs eq_refl Hr eq_refl)
    as [_ H].
  assert (Hs2 : "//docs/a/blog.md" <> "") by discriminate.
  assert (Hr2 : contains_char star "//docs/a/blog.md" = false
                /\ Path "//docs/a/blog.md" = Path "//docs/a/blog.md"
                \/ contains_char star "//docs/a/blog.md" = true
                   /\ exists others,
                        Voice.fs_glob full_world (parent (Path "//docs/a/blog.md"))
                          (name (Path "//docs/a/blog.md"))
                        = Ok (Path "//docs/a/blog.md" :: others))
    by (left; split; reflexivity).
  destruct (open_file_opens full_world [("path", JStr "//docs/a/blog.md")]
              "//docs/a/blog.md" (Path "//docs/a/blog.md") (Path "//docs/a/blog.md")
              eq_refl Hs2 eq_refl Hr2 eq_refl)
    as [H2 _].
  assert (Hs3 : "~/notes//b.md" <> "") by discriminate.
  assert (Hr3 : contains_char star "~/notes//b.md" = false
                /\ Path "/home/u/notes/b.md" = Path "/home/u/notes/b.md"
                \/ contains_char star "~/notes//b.md" = true
                   /\ exists others,
                        Voice.fs_glob full_world
                          (parent (Path "/home/u/notes/b.md"))
                          (name (Path "/home/u/notes/b.md"))
                        = Ok (Path "/home/u/notes/b.md" :: others))
    by (left; split; reflexivity).
  destruct (open_file_opens full_world [("path", JStr "~/notes//b.md")]
              "~/notes//b.md" (Path "/home/u/notes/b.md")
              (Path "/home/u/notes/b.md")
              eq_refl Hs3 eq_refl Hr3 eq_refl)
    as [H3 _].
  split; [|split].
  - apply (H "Typora"); [reflexivity|discriminate].
  - apply H2. reflexivity.
  - apply H3. reflexivity.
Defined.

Lemma open_file_refuses_witness :
  Voice.execute drafts_world (open_file_command [("app", JStr "Typora")])
  = ([], Ok false)
  /\ Voice.execute drafts_world (open_file_command [("path", JStr "/docs/b/*.md")])
     = ([], Ok false)
  /\ Voice.execute drafts_world (open_file_command [("path", JStr "/no/such/file")])
     = ([], Ok false).
Proof.
  destruct (open_file_refuses drafts_world [("app", JStr "Typora")]) as (H1 & _).
  destruct (open_file_refuses drafts_world [("path", JStr "/docs/b/*.md")])
    as (_ & H2 & _).
  destruct (open_file_refuses drafts_world [("path", JStr "/no/such/file")])
    as (_ & _ & H3).
  assert (Hb : "/docs/b/*.md" <> "") by discriminate.
  assert (Hn : "/no/such/file" <> "") by discriminate.
  split; [|split].
  - apply H1. reflexivity.
  - exact (H2 "/docs/b/*.md" (Path "/docs/b/*.md") eq_refl Hb eq_refl eq_refl eq_refl).
  - apply (H3 "/no/such/file" (Path "/no/such/file") (Path "/no/such/file")
             eq_refl Hn eq_refl); [|reflexivity].
    left. split; reflexivity.
Defined.

End ExecutorExamples.

(** ** [FileWatcher] *)

Section Relay.

Variable w : Voice.env.


(** What an iteration of the loop leaves as the watcher's state: the state
    it had (the file could not be read, or what was read is empty or the
    content seen before), or the content read with the history one message
    longer. *)
Lemma watch_iteration_state (interval : Q) (st st' : Voice.watcher)
    (t : list Voice.event) :
  Voice.watch_iteration interval w st = (t, Ok st') ->
  (st' = st
   /\ forall content,
        reads w content -> content = Voice.last_content st \/ content = "")
  \/ exists content,
       Voice.watched_read_text w = Ok content
       /\ content <> ""
       /\ content <> Voice.last_content st
       /\ st' = Voice.mkWatcher content
                  (Voice.add_message Voice.default_context_size
                     (Voice.message_history st)
                     (Voice.extract_new_content st content)).
Proof.
  unfold Voice.watch_iteration, Voice.read_file, reads.
  destruct (Voice.watched_exists w);
    [|intros [= _ <-]; left; split; [reflexivity|intros c (? & _); discriminate]].
  destruct (Voice.watched_exists_again w);
    [|intros [= _ <-]; left; split;
      [reflexivity|intros c (_ & ? & _); discriminate]].
  destruct (Voice.watched_read_text w) as [content|e] eqn:Hread;
    [|intros [= _ <-]; left; split;
      [reflexivity|intros c (_ & _ & ?); discriminate]].
  cbn -[Voice.process_input Voice.extract_new_content String.eqb str_truthy].
  destruct (String.eqb content (Voice.last_content st)) eqn:Heq.
  { intros [= _ <-]. left. split; [reflexivity|].
    intros c (_ & _ & [= <-]). left. now apply String.eqb_eq. }
  destruct (str_truthy content) eqn:Ht.
  2:{ intros [= _ <-]. left. split; [reflexivity|].
      intros c (_ & _ & [= <-]). right. now apply str_truthy_false. }
  cbn -[Voice.process_input Voice.extract_new_content].
  destruct (process_input_eq w st (Voice.extract_new_content st content))
    as (r & _ & E).
  destruct (Voice.process_input w st (Voice.extract_new_content st content))
    as [history [tp [u|e]]] eqn:Hp; [|discriminate].
  injection E as -> _.
  intros [= _ <-]. right. exists content.
  repeat split.
  - intros ->. discriminate.
  - now apply String.eqb_neq.
Qed.

Lemma watch_iteration_empty (interval : Q) (st : Voice.watcher) :
  reads w "" ->
  Voice.watch_iteration interval w st
  = ([Voice.EvExists; Voice.EvExists; Voice.EvReadText; Voice.EvSleep interval],
     Ok st).
Proof.
  intros (Hex & Hex' & Hread). unfold Voice.watch_iteration, Voice.read_file.
  rewrite Hex, Hex', Hread.
  cbn -[String.eqb]. now rewrite andb_false_r.
Qed.

End Relay.

Section WatchInvariants.

(** X13: once an iteration has read a content, a next iteration that reads
    the same content sends nothing to the parser and runs nothing: it checks
    the file, reads it and sleeps. *)
Theorem watch_iteration_settles (interval : Q) (w w' : Voice.env)
    (st st' : Voice.watcher) (t : list Voice.event) (content : string) :
  reads w content ->
  reads w' content ->
  Voice.watch_iteration interval w st = (t, Ok st') ->
  Voice.watch_iteration interval w' st'
  = ([Voice.EvExists; Voice.EvExists; Voice.EvReadText; Voice.EvSleep interval],
     Ok st').
Proof.
  intros Hr Hr' H.
  destruct (watch_iteration_state w interval st st' t H)
    as [[-> Hc]|(c & Hc & Hne & Hneq & ->)].
  - destruct (Hc content Hr) as [->| ->].
    + destruct Hr' as (? & ? & ?). now apply watch_iteration_unchanged.
    + now apply watch_iteration_empty.
  - destruct Hr as (_ & _ & Hread). rewrite Hread in Hc. injection Hc as <-.
    destruct Hr' as (? & ? & ?). now apply watch_iteration_unchanged.
Qed.

(** X14: the loop keeps the parser's history within its capacity: from a
    history of at most 10 messages, and so from a new watcher, every state
    the loop reaches holds at most 10 messages. *)
Theorem watch_keeps_history_bounded (interval : Q) (ws : list Voice.env)
    (st st' : Voice.watcher) (t : list Voice.event) :
  (len (Voice.message_history st) <= 10)%Z ->
  Voice.watch interval ws st = (t, Ok st') ->
  (len (Voice.message_history st') <= 10)%Z.
Proof.
  revert st t. induction ws as [|w ws IH]; intros st t Hb H; simpl in H.
  - now injection H as _ <-.
  - destruct (Voice.watch_iteration interval w st) as [t1 [st1|e]] eqn:E1;
      simpl in H; [|discriminate].
    destruct (Voice.watch interval ws st1) as [t2 r2] eqn:E2.
    injection H as _ ->.
    apply (IH st1 t2); [|exact E2].
    destruct (watch_iteration_state w interval st st1 t1 E1)
      as [[-> _]|(c & _ & _ & _ & ->)]; [exact Hb|].
    apply add_message_bounded.
Qed.

End WatchInvariants.

Section WatchExamples.


Lemma watch_iteration_settles_witness :
  Voice.watch_iteration 1 (world (Ok "hello") (Voice.RunRaises TimeoutExpired))
    seen_hello
  = ([Voice.EvExists; Voice.EvExists; Voice.EvReadText; Voice.EvSleep 1],
     Ok seen_hello).
Proof.
  apply (watch_iteration_settles 1
           (world (Ok "hello") (Voice.RunRaises TimeoutExpired))
           (world (Ok "hello") (Voice.RunRaises TimeoutExpired))
           Voice.init seen_hello
           [Voice.EvExists; Voice.EvExists; Voice.EvReadText;
            Voice.EvClaude (Voice.mkPrompt "(No prior context)" "hello");
            Voice.EvRun (pbcopy "hello"); Voice.EvRun paste; Voice.EvSleep 1]
           "hello");
    repeat split.
Defined.

Lemma watch_keeps_history_bounded_witness :
  (len (Voice.message_history seen_hello) <= 10)%Z.
Proof.
  apply (watch_keeps_history_bounded 1
           [world (Ok "hello") (Voice.RunRaises TimeoutExpired)]
           Voice.init seen_hello
           [Voice.EvExists; Voice.EvExists; Voice.EvReadText;
            Voice.EvClaude (Voice.mkPrompt "(No prior context)" "hello");
            Voice.EvRun (pbcopy "hello"); Voice.EvRun paste; Voice.EvSleep 1]).
  - unfold len. simpl. lia.
  - reflexivity.
Defined.

End WatchExamples.

(** ** What the dispatch runs *)

Section OnlyRuns.

Variable w : Voice.env.

Lemma runs_ret {A : Type} (a : A) : runs_only (Voice.ret a).
Proof. reflexivity. Qed.

Lemma runs_raise {A : Type} (e : exn) : runs_only (@Voice.raise A e).
Proof. reflexivity. Qed.

Lemma runs_lift {A : Type} (r : res A) : runs_only (Voice.lift r).
Proof. reflexivity. Qed.

Lemma runs_run_check (c : Voice.command_line) : runs_only (Voice.run_check w c).
Proof. unfold runs_only. rewrite run_check_eq. reflexivity. Qed.

Lemma runs_bind {A B : Type} (m : Voice.M A) (k : A -> Voice.M B) :
  runs_only m -> (forall a, runs_only (k a)) -> runs_only (Voice.bindM m k).
Proof.
  unfold runs_only. destruct m as [t [a|e]]; simpl; intros Hm Hk; [|exact Hm].
  specialize (Hk a). destruct (k a) as [t' r]. simpl in *.
  rewrite forallb_app. now rewrite Hm, Hk.
Qed.

Lemma runs_try {A : Type} (m : Voice.M A) (h : exn -> Voice.M A) :
  runs_only m -> (forall e, runs_only (h e)) -> runs_only (Voice.tryM m h).
Proof.
  unfold runs_only. destruct m as [t [a|e]]; simpl; intros Hm Hh; [exact Hm|].
  specialize (Hh e). destruct (h e) as [t' r]. simpl in *.
  rewrite forallb_app. now rewrite Hm, Hh.
Qed.

Lemma runs_forM {A : Type} (l : list A) (body : A -> Voice.M unit) :
  (forall a, runs_only (body a)) -> runs_only (Voice.forM l body).
Proof.
  intro Hb. induction l as [|a l IH]; simpl; [reflexivity|].
  apply runs_bind; [apply Hb|intros _; exact IH].
Qed.

Ltac runs :=
  repeat first
    [ apply runs_ret | apply runs_raise | apply runs_lift | apply runs_run_check
    | apply runs_bind; [|intro] | apply runs_try; [|intro]
    | apply runs_forM; intro
    | match goal with
      | |- runs_only (if ?b then _ else _) => destruct b
      | |- runs_only (match ?x with _ => _ end) => destruct x
      end ].

Lemma runs_execute (c : Voice.Command) : runs_only (Voice.execute w c).
Proof.
  unfold Voice.execute.
  destruct (Voice.type c) as [| | | |kind| |]; try reflexivity.
  unfold Voice.handlers.
  destruct (String.eqb kind "openApp");
    [unfold Voice._open_app, Voice.as_arg; runs|].
  destruct (String.eqb kind "openFile");
    [unfold Voice._open_file, Voice.as_arg; runs|].
  destruct (String.eqb kind "scroll"); [|reflexivity].
  unfold Voice._scroll, Voice.range; runs.
Qed.


(** X15: whatever the command, [execute] does nothing but run OS commands:
    it never calls the assistant, never reads the watched file and never
    sleeps. *)
Theorem execute_only_runs_commands (c : Voice.Command) :
  forallb is_run (fst (Voice.execute w c)) = true.
Proof. exact (runs_execute c). Qed.



Lemma dispatch_trace (cmds : list Voice.Command) :
  forallb (fun c => match Voice.type c with JStr _ => true | _ => false end) cmds = true ->
  Voice.forM cmds (fun cmd => Voice.bindM (Voice.execute w cmd) (fun _ => Voice.ret tt))
  = (flat_map (fun c => fst (Voice.execute w c)) cmds, Ok tt).
Proof.
  induction cmds as [|c cmds IH]; intro H; simpl; [reflexivity|].
  simpl in H. apply andb_true_iff in H. destruct H as [Hc Hrest].
  destruct (Voice.type c) as [| | | |kind| |] eqn:E; try discriminate.
  destruct (execute_str_total w c kind E) as (t & b & ->).
  rewrite (IH Hrest). simpl. now rewrite app_nil_r.
Qed.

(** X16: with a parsed input, [process_input] calls the assistant once,
    then executes every command in the order given, a failed command not
    stopping the later ones, and last relays the session prompt to the
    terminal when it is a non-empty string. *)
Theorem process_input_dispatches_in_order (st : Voice.watcher) (text : string)
    (parsed : Voice.ParsedInput) :
  parse_result w st text = Ok (Some parsed) ->
  dispatchable parsed = true ->
  snd (Voice.process_input w st text)
  = (Voice.EvClaude (prompt_for st text)
       :: flat_map (fun c => fst (Voice.execute w c)) (Voice.commands parsed)
       ++ relay_of w (Voice.session_prompt parsed),
     Ok tt).
Proof.
  intros Hp Hd. destruct (process_input_eq w st text) as (r & Hr & E).
  rewrite E. rewrite Hp in Hr. injection Hr as <-. simpl snd.
  unfold dispatchable in Hd. apply andb_true_iff in Hd. destruct Hd as [Hs Hc].
  cbn [Voice.bindM]. rewrite (dispatch_trace _ Hc). cbn [Voice.bindM].
  unfold relay_of.
  destruct (Voice.session_prompt parsed) as [| | | |s| |]; try discriminate.
  - simpl. now rewrite !app_nil_r.
  - cbn [truthy]. destruct (str_truthy s).
    + rewrite send_to_terminal_str. reflexivity.
    + simpl. now rewrite !app_nil_r.
Qed.


End OnlyRuns.

(** ** The watcher on a file that grows *)

Section GrowingFile.








End GrowingFile.

Section MoreWatchExamples.



Lemma process_input_dispatches_in_order_witness :
  snd (Voice.process_input scroll_bottom_world Voice.init "go down")
  = ([Voice.EvClaude (Voice.mkPrompt "(No prior context)" "go down");
      Voice.EvRun (jump "125")], Ok tt).
Proof.
  apply (process_input_dispatches_in_order scroll_bottom_world Voice.init "go down"
           (Voice.mkParsedInput JNull
              [Voice.mkCommand (JStr "scroll") (JObj [("direction", JStr "bottom")])]));
    reflexivity.
Defined.

End MoreWatchExamples.

(** ** More of the phase runner *)

Section RunnerTraces.

Import PhaseRunner.

Variable move_on_complete : bool.
Variable max_runtime_seconds : Z.

(** The events of one pass through the loop body. *)
Lemma loop_body_cases (w : env) (phases : list Phase) (idx : Z) :
  let (t, f) := loop_body max_runtime_seconds w phases idx in
  (t = [] /\ f = Break)
  \/ (exists term, t = [] /\ f = SysExit term /\ exit_code term = 1%Z)
  \/ (exists i d term,
        t = [EvExecutePhase i d] /\ f = SysExit term /\ exit_code term = 1%Z)
  \/ (exists i d term,
        t = [EvExecutePhase i d; EvGetPhaseStatus]
        /\ f = SysExit term /\ exit_code term = 1%Z)
  \/ (exists i d phases',
        t = [EvExecutePhase i d; EvGetPhaseStatus] /\ f = Continue phases' (-1))
  \/ (exists i d phases' idx',
        t = [EvExecutePhase i d; EvGetPhaseStatus; EvSleep 2]
        /\ f = Continue phases' idx').
Proof.
  unfold loop_body.
  destruct (Qle_bool _ _); [now left|].
  destruct (getitem phases idx) as [current_phase|e];
    [|right; left; eauto].
  destruct (execute_phase w idx (description current_phase)) as [result|e];
    [|right; right; left; eauto 6].
  destruct (get result "success" (JBool false)) as [success|e];
    [|right; right; left; eauto 6].
  destruct (negb (truthy success)); [right; right; left; eauto 6|].
  destruct (get_phase_status (status_run w)) as [status|e];
    [|right; right; right; left; eauto 6].
  destruct (nextPhaseIndex status =? -1)%Z eqn:E; simpl.
  - apply Z.eqb_eq in E. rewrite E. right; right; right; right; left. eauto.
  - right; right; right; right; right. eauto 10.
Qed.

(** The calls of the loop: every execution requeried, but for a last one
    the run fails on; nothing of what follows the loop. *)
Lemma main_loop_requeried (ws : list env) (phases : list Phase) (idx : Z) :
  let (t, e) := main_loop max_runtime_seconds ws phases idx in
  requeried t = true
  /\ existsb is_epilogue t = false
  /\ match e with
     | Exited term => exit_code term = 1%Z
     | _ => always_requeried t = true
     end.
Proof.
  revert phases idx. induction ws as [|w ws IH]; intros phases idx; simpl.
  - destruct (idx =? -1)%Z; repeat split.
  - destruct (idx =? -1)%Z; [repeat split|].
    pose proof (loop_body_cases w phases idx) as Hb.
    destruct (loop_body max_runtime_seconds w phases idx) as [t f].
    destruct Hb as [[-> ->]
                   |[(term & -> & -> & Hc)
                    |[(i & d & term & -> & -> & Hc)
                     |[(i & d & term & -> & -> & Hc)
                      |[(i & d & ph' & -> & ->)
                       |(i & d & ph' & idx' & -> & ->)]]]]].
    + repeat split.
    + repeat split. exact Hc.
    + repeat split. exact Hc.
    + repeat split. exact Hc.
    + specialize (IH ph' (-1)%Z).
      destruct (main_loop max_runtime_seconds ws ph' (-1)) as [t' e].
      destruct IH as (H1 & H2 & H3). simpl.
      repeat split; try assumption; try (destruct e; assumption).
    + specialize (IH ph' idx').
      destruct (main_loop max_runtime_seconds ws ph' idx') as [t' e].
      destruct IH as (H1 & H2 & H3). simpl.
      repeat split; try assumption; try (destruct e; assumption).
Qed.

Lemma always_requeried_app (t t' : list event) :
  always_requeried t = true ->
  existsb is_execute t' = false ->
  always_requeried (t ++ t') = true.
Proof.
  intros Ht Hnone.
  assert (Ht' : always_requeried t' = true).
  { induction t' as [|ev t' IH]; [reflexivity|].
    destruct ev; simpl in *; try discriminate; now apply IH. }
  assert (Hhead : forall i d rest, t' <> EvExecutePhase i d :: rest).
  { intros i d rest ->. discriminate. }
  clear Hnone. revert Ht. induction t as [|ev t IH]; intro Ht; [exact Ht'|].
  destruct ev; simpl in *; try (now apply IH).
  destruct t as [|ev' t]; [discriminate|].
  destruct ev'; try discriminate. now apply IH.
Qed.

Lemma requeried_of_always (t : list event) :
  always_requeried t = true -> requeried t = true.
Proof.
  induction t as [|ev t IH]; [reflexivity|].
  destruct ev; simpl; try exact IH.
  destruct t as [|ev' t]; [reflexivity|].
  destruct ev'; try discriminate. exact IH.
Qed.

Lemma epilogue_quiet : existsb is_execute (epilogue move_on_complete) = false.
Proof. unfold epilogue. now destruct move_on_complete. Qed.

Lemma finish_eq (t : list event) (e : loop_end) :
  finish move_on_complete (t, e)
  = match e with
    | Left _ idx =>
        if (idx =? -1)%Z then (t ++ epilogue move_on_complete, Some AllComplete)
        else (t, Some TimeLimitReached)
    | Exited term => (t, Some term)
    | Unfinished _ _ => (t, None)
    end.
Proof. reflexivity. Qed.

(** X18: in every run, each execution of a phase is followed at once by a
    status query, or, when the run fails on it, is the last call.  In a run
    that ends with exit code 0 every execution is followed by a status
    query: the runner never goes on, and never declares the plan complete,
    on a report older than its last execution. *)
Theorem every_execution_is_requeried (first : run_outcome Report) (ws : list env) :
  requeried (fst (main move_on_complete max_runtime_seconds first ws)) = true
  /\ (forall term,
        snd (main move_on_complete max_runtime_seconds first ws) = Some term ->
        exit_code term = 0%Z ->
        always_requeried (fst (main move_on_complete max_runtime_seconds first ws))
        = true).
Proof.
  unfold main.
  destruct (get_phase_status first) as [status|e];
    [|split; [reflexivity|intros term [= <-]; discriminate]].
  destruct (nextPhaseIndex status =? -1)%Z; [split; reflexivity|].
  destruct (getitem (phases status) (nextPhaseIndex status)) as [p|e];
    [|split; [reflexivity|intros term [= <-]; discriminate]].
  unfold main_from_loop.
  pose proof (main_loop_requeried ws (phases status) (nextPhaseIndex status)) as H.
  destruct (main_loop max_runtime_seconds ws (phases status) (nextPhaseIndex status))
    as [t e].
  destruct H as (H1 & H2 & H3). rewrite finish_eq.
  destruct e as [ph idx|term|ph idx].
  - pose proof (always_requeried_app t _ H3 epilogue_quiet) as Ha.
    destruct (idx =? -1)%Z; simpl.
    + split; [now apply requeried_of_always|intros; exact Ha].
    + split; [exact H1|intros; exact H3].
  - simpl. split; [exact H1|].
    intros term' [= <-] Hcode. rewrite H3 in Hcode. discriminate.
  - simpl. split; [exact H1|intros term [=]].
Qed.

(** X19: nothing of what follows a complete plan (the move of the document,
    the commit, the sound) is attempted in a run that does not leave the
    loop with all phases complete: not when the plan was complete at the
    first query, not on a time limit, not on a failure.  And the document is
    not moved unless it was chosen from the list. *)
Theorem epilogue_only_when_complete (first : run_outcome Report) (ws : list env) :
  (snd (main move_on_complete max_runtime_seconds first ws) <> Some AllComplete ->
   existsb is_epilogue (fst (main move_on_complete max_runtime_seconds first ws))
   = false)
  /\ (In EvMoveSpec (fst (main move_on_complete max_runtime_seconds first ws)) ->
      move_on_complete = true).
Proof.
  unfold main.
  destruct (get_phase_status first) as [status|e];
    [|split; [reflexivity|intros [H|[]]; discriminate]].
  destruct (nextPhaseIndex status =? -1)%Z;
    [split; [reflexivity|intros [H|[]]; discriminate]|].
  destruct (getitem (phases status) (nextPhaseIndex status)) as [p|e];
    [|split; [reflexivity|intros [H|[]]; discriminate]].
  unfold main_from_loop.
  pose proof (main_loop_requeried ws (phases status) (nextPhaseIndex status)) as H.
  destruct (main_loop max_runtime_seconds ws (phases status) (nextPhaseIndex status))
    as [t e].
  destruct H as (H1 & H2 & H3). rewrite finish_eq.
  assert (Hno : ~ In EvMoveSpec t).
  { intro Hin. assert (existsb is_epilogue t = true); [|congruence].
    apply existsb_exists. exists EvMoveSpec. now split. }
  destruct e as [ph idx|term|ph idx].
  - destruct (idx =? -1)%Z; simpl.
    + split; [intro H; now destruct H|].
      intros [H|H]; [discriminate|].
      apply in_app_or in H. destruct H as [H|H]; [contradiction|].
      unfold epilogue in H. destruct move_on_complete; [reflexivity|].
      simpl in H. destruct H as [H|[H|[]]]; discriminate.
    + split; [intros _; exact H2|].
      intros [H|H]; [discriminate|contradiction].
  - simpl. split; [intros _; exact H2|].
    intros [H|H]; [discriminate|contradiction].
  - simpl. split; [intros _; exact H2|].
    intros [H|H]; [discriminate|contradiction].
Qed.

(** X20: the run does not outlast its budget by more than the iteration
    under way: if one of the time checks to come finds the budget used up,
    the run has ended by then, with whatever answers the assistant gives. *)
Theorem budget_ends_the_run (ws : list env) (phases : list Phase) (idx : Z) :
  (exists w, In w ws /\ (inject_Z max_runtime_seconds <= elapsed w)%Q) ->
  exists term,
    snd (main_from_loop move_on_complete max_runtime_seconds ws phases idx)
    = Some term.
Proof.
  unfold main_from_loop.
  revert phases idx. induction ws as [|w ws IH]; intros phases idx (w0 & Hin & Hq).
  - destruct Hin.
  - simpl main_loop.
    destruct (idx =? -1)%Z eqn:E;
      [rewrite finish_eq, E; eexists; reflexivity|].
    unfold loop_body.
    destruct (Qle_bool (inject_Z max_runtime_seconds) (elapsed w)) eqn:Eq;
      [rewrite finish_eq, E; eexists; reflexivity|].
    assert (Hin' : In w0 ws).
    { destruct Hin as [->|Hin]; [|exact Hin].
      apply Qle_bool_iff in Hq. congruence. }
    destruct (getitem phases idx) as [current_phase|e];
      [|eexists; reflexivity].
    destruct (execute_phase w idx (description current_phase)) as [result|e];
      [|eexists; reflexivity].
    destruct (get result "success" (JBool false)) as [success|e];
      [|eexists; reflexivity].
    destruct (negb (truthy success)); [eexists; reflexivity|].
    destruct (get_phase_status (status_run w)) as [status|e];
      [|eexists; reflexivity].
    specialize (IH (PhaseRunner.phases status) (nextPhaseIndex status)
                  (ex_intro _ w0 (conj Hin' Hq))).
    destruct (main_loop max_runtime_seconds ws (PhaseRunner.phases status)
                (nextPhaseIndex status)) as [t' e'].
    rewrite finish_eq in *.
    destruct e' as [ph i|term|ph i]; [destruct (i =? -1)%Z| |];
      simpl in *; try (eexists; reflexivity). exact IH.
Qed.

End RunnerTraces.

Section MoreRunnerExamples.

Import PhaseRunner.

Lemma every_execution_is_requeried_witness :
  always_requeried
    (fst (main false 5400 (completes (mkReport two_phases 1)) [obliging])) = true.
Proof.
  destruct (every_execution_is_requeried false 5400
              (completes (mkReport two_phases 1)) [obliging]) as [_ H].
  apply (H AllComplete); reflexivity.
Defined.

Lemma epilogue_only_when_complete_witness :
  existsb is_epilogue
    (fst (main true 5400 (completes (mkReport two_phases 1)) [late])) = false.
Proof.
  destruct (epilogue_only_when_complete true 5400
              (completes (mkReport two_phases 1)) [late]) as [H _].
  apply H. discriminate.
Defined.

Lemma budget_ends_the_run_witness :
  exists term,
    snd (main_from_loop false 5400 [continuing; late] two_phases 0) = Some term.
Proof.
  apply (budget_ends_the_run false 5400 [continuing; late] two_phases 0).
  exists late. split.
  - right. left. reflexivity.
  - simpl. unfold Qle. simpl. lia.
Defined.

End MoreRunnerExamples.

(** ** [format_time] and the timer line *)

Section Clock.

Import PhaseRunner.

Lemma split_without_sep (sep : ascii) (a : string) :
  contains_char sep a = false -> split sep a = [a].
Proof.
  induction a as [|c a IH]; simpl; [reflexivity|].
  intro H. apply orb_false_iff in H. destruct H as [Hc Ha].
  rewrite Hc, (IH Ha). reflexivity.
Qed.

Lemma split_at_sep (sep : ascii) (a rest : string) :
  contains_char sep a = false ->
  split sep (a ++ String sep rest) = a :: split sep rest.
Proof.
  induction a as [|c a IH]; simpl; intro H.
  - now rewrite Ascii.eqb_refl.
  - apply orb_false_iff in H. destruct H as [Hc Ha].
    rewrite Hc, (IH Ha). reflexivity.
Qed.

Lemma digits_without_colon (d : Decimal.uint) :
  contains_char ":" (NilEmpty.string_of_uint d) = false.
Proof. induction d; simpl; try exact IHd; reflexivity. Qed.

Lemma str_of_int_without_colon (n : Z) :
  contains_char ":" (str_of_int n) = false.
Proof.
  unfold str_of_int, NilZero.string_of_int, NilZero.string_of_uint.
  destruct (Z.to_int n) as [d|d]; destruct d; simpl;
    try apply digits_without_colon; reflexivity.
Qed.

Lemma fmt02d_without_colon (n : Z) : contains_char ":" (fmt02d n) = false.
Proof.
  unfold fmt02d. destruct (_ && _); simpl; apply str_of_int_without_colon.
Qed.

Lemma read_str_of_int (n : Z) : read_field (str_of_int n) = Some n.
Proof.
  unfold read_field, str_of_int.
  rewrite NilZero.isi.
  - simpl. f_equal. apply DecimalZ.of_to.
  - intro H. pose proof (DecimalZ.of_to n) as E. rewrite H in E.
    simpl in E. subst n. discriminate H.
  - intro H. pose proof (DecimalZ.of_to n) as E. rewrite H in E.
    simpl in E. subst n. discriminate H.
Qed.

Lemma read_fmt02d (n : Z) : read_field (fmt02d n) = Some n.
Proof.
  unfold fmt02d.
  destruct ((0 <=? n)%Z && (n <? 10)%Z) eqn:E; [|apply read_str_of_int].
  apply andb_true_iff in E. destruct E as [Hl Hu].
  apply Z.leb_le in Hl. apply Z.ltb_lt in Hu.
  assert (Hk : exists k, (k < 10)%nat /\ n = Z.of_nat k).
  { exists (Z.to_nat n). split; lia. }
  destruct Hk as (k & Hk & ->).
  do 10 (destruct k as [|k]; [reflexivity|]). lia.
Qed.

(** X22: the clock text of [format_time] can be read back: for every number
    of seconds, its text has three fields parted by colons, hours, minutes
    below 60 and seconds below 60, that stand for that very number of
    seconds. *)
Theorem format_time_reads_back (seconds : Z) :
  read_time (format_time seconds) = Some seconds
  /\ split ":" (format_time seconds)
     = [fmt02d (seconds / 3600); fmt02d ((seconds mod 3600) / 60);
        fmt02d (seconds mod 60)]
  /\ (0 <= (seconds mod 3600) / 60 < 60)%Z
  /\ (0 <= seconds mod 60 < 60)%Z.
Proof.
  assert (Hs : split ":" (format_time seconds)
               = [fmt02d (seconds / 3600); fmt02d ((seconds mod 3600) / 60);
                  fmt02d (seconds mod 60)]).
  { change (format_time seconds)
      with (fmt02d (seconds / 3600)
            ++ String ":" (fmt02d ((seconds mod 3600) / 60)
                           ++ String ":" (fmt02d (seconds mod 60))))%string.
    rewrite !split_at_sep by apply fmt02d_without_colon.
    now rewrite split_without_sep by apply fmt02d_without_colon. }
  split; [|split; [exact Hs|]].
  - unfold read_time. rewrite Hs, !read_fmt02d. f_equal.
    pose proof (Z.div_mod seconds 3600).
    pose proof (Z.div_mod (seconds mod 3600) 60).
    assert ((seconds mod 60 = (seconds mod 3600) mod 60)%Z).
    { symmetry. apply Z.mod_mod_divide. exists 60%Z. reflexivity. }
    lia.
  - pose proof (Z.mod_pos_bound seconds 3600).
    pose proof (Z.mod_pos_bound seconds 60).
    split; [|lia].
    split; [apply Z.div_pos; lia|apply Z.div_lt_upper_bound; lia].
Qed.

(** X23: the timer line is cut or filled to the width of the terminal: the
    line written has exactly as many characters as the terminal has
    columns, and is the text of the timer followed by spaces only, or the
    start of that text. *)
Theorem fit_display_has_terminal_width {char : Type} (space : char)
    (timer_display : list char) (term_width : Z) :
  (0 <= term_width)%Z ->
  len (fit_display space timer_display term_width) = term_width
  /\ ((exists k, fit_display space timer_display term_width
                 = timer_display ++ repeat space k)
      \/ (exists rest, timer_display
                       = fit_display space timer_display term_width ++ rest)).
Proof.
  intro Hw. unfold fit_display, len.
  destruct (_ <? term_width)%Z eqn:E1.
  - apply Z.ltb_lt in E1. split; [|left; eexists; reflexivity].
    rewrite length_app, repeat_length. lia.
  - apply Z.ltb_ge in E1.
    destruct (term_width <? _)%Z eqn:E2.
    + apply Z.ltb_lt in E2. unfold slice_to.
      destruct (term_width <? 0)%Z eqn:E3; [apply Z.ltb_lt in E3; lia|].
      split; [rewrite length_firstn; lia|].
      right. exists (skipn (Z.to_nat term_width) timer_display).
      symmetry. apply firstn_skipn.
    + apply Z.ltb_ge in E2. split; [lia|].
      left. exists 0%nat. simpl. now rewrite app_nil_r.
Qed.

End Clock.

Section ClockExamples.

Import PhaseRunner.

Lemma fit_display_has_terminal_width_witness :
  len (fit_display 32%Z timer_sample 12) = 12%Z
  /\ len (fit_display 32%Z timer_sample 4) = 4%Z.
Proof.
  split.
  - apply (fit_display_has_terminal_width 32%Z timer_sample 12). lia.
  - apply (fit_display_has_terminal_width 32%Z timer_sample 4). lia.
Defined.

End ClockExamples.

(** ** [select_planning_doc] *)

Section SelectPlanningDoc.

Import PhaseRunner.

Lemma insert_by_mtime_in (f g : md_file) (l : list md_file) :
  In g (insert_by_mtime f l) <-> g = f \/ In g l.
Proof.
  induction l as [|h l IH]; simpl.
  - intuition congruence.
  - destruct (Qle_bool (st_mtime h) (st_mtime f)); simpl.
    + intuition congruence.
    + rewrite IH. intuition congruence.
Qed.

Lemma sorted_by_mtime_in (g : md_file) (l : list md_file) :
  In g (sorted_by_mtime l) <-> In g l.
Proof.
  induction l as [|f l IH]; simpl; [reflexivity|].
  rewrite insert_by_mtime_in, IH. intuition congruence.
Qed.

Lemma insert_by_mtime_sorted (f : md_file) (l : list md_file) :
  StronglySorted not_older l -> StronglySorted not_older (insert_by_mtime f l).
Proof.
  induction l as [|h l IH]; intro Hs; simpl.
  - constructor; constructor.
  - inversion Hs as [|? ? Hl Hh]; subst.
    destruct (Qle_bool (st_mtime h) (st_mtime f)) eqn:E.
    + apply Qle_bool_iff in E. constructor; [exact Hs|].
      constructor; [exact E|].
      apply Forall_forall. intros g Hg.
      unfold not_older. apply Qle_trans with (st_mtime h); [|exact E].
      exact (proj1 (Forall_forall _ _) Hh g Hg).
    + assert (Hlt : (st_mtime f <= st_mtime h)%Q).
      { apply Qlt_le_weak. apply Qnot_le_lt. intro H.
        apply Qle_bool_iff in H. congruence. }
      constructor; [now apply IH|].
      apply Forall_forall. intros g Hg.
      apply insert_by_mtime_in in Hg. destruct Hg as [->|Hg]; [exact Hlt|].
      exact (proj1 (Forall_forall _ _) Hh g Hg).
Qed.

Lemma sorted_by_mtime_sorted (l : list md_file) :
  StronglySorted not_older (sorted_by_mtime l).
Proof.
  induction l as [|f l IH]; simpl; [constructor|].
  now apply insert_by_mtime_sorted.
Qed.

Lemma in_skipn {A : Type} (n : nat) (l : list A) (a : A) :
  In a (skipn n l) -> In a l.
Proof.
  revert l. induction n as [|n IH]; intros l H; [exact H|].
  destruct l as [|b l]; [exact H|]. right. now apply IH.
Qed.

Lemma in_firstn {A : Type} (n : nat) (l : list A) (a : A) :
  In a (firstn n l) -> In a l.
Proof.
  revert l. induction n as [|n IH]; intros l H; [destruct H|].
  destruct l as [|b l]; [exact H|].
  destruct H as [H|H]; [now left|right; now apply IH].
Qed.

Lemma sorted_prefix_not_older (l : list md_file) (n : nat) (f g : md_file) :
  StronglySorted not_older l ->
  In f (firstn n l) -> In g (skipn n l) -> not_older f g.
Proof.
  revert n. induction l as [|h l IH]; intros n Hs Hf Hg.
  - destruct n; destruct Hf.
  - destruct n as [|n]; [destruct Hf|].
    inversion Hs as [|? ? Hl Hh]; subst. simpl in Hf, Hg.
    destruct Hf as [->|Hf]; [|now apply (IH n)].
    apply (proj1 (Forall_forall _ _) Hh). eapply in_skipn. exact Hg.
Qed.

Lemma getitem_nth {A : Type} (l : list A) (i : Z) (a : A) :
  (0 <= i)%Z -> getitem l i = Ok a -> nth_error l (Z.to_nat i) = Some a.
Proof.
  intros Hi. unfold getitem.
  destruct (i <? 0)%Z eqn:E; [apply Z.ltb_lt in E; lia|].
  destruct (_ || _); [discriminate|].
  destruct (nth_error l (Z.to_nat i)); [now intros [= ->]|discriminate].
Qed.

(** X24: in a directory with files, an empty line picks the first of the
    list shown, and no file in the directory was modified later than it. *)
Theorem select_default_is_newest (listing : list md_file) (int_of : string -> option Z) :
  listing <> [] ->
  int_of "1" = Some 1%Z ->
  exists f,
    select_planning_doc true listing "" int_of = Some f
    /\ In f listing
    /\ forall g, In g listing -> not_older f g.
Proof.
  intros Hne Hint. unfold select_planning_doc. simpl negb. cbv iota.
  pose proof (sorted_by_mtime_sorted listing) as Hs.
  pose proof (fun g => sorted_by_mtime_in g listing) as Hin.
  destruct (sorted_by_mtime listing) as [|f rest].
  - destruct listing as [|g listing]; [contradiction|].
    destruct (proj2 (Hin g) (or_introl eq_refl)).
  - simpl firstn. simpl str_truthy. cbv iota. simpl negb. cbv iota.
    rewrite Hint. exists f.
    replace ((0 <=? 1 - 1)%Z && (1 - 1 <? len (f :: firstn 4 rest))%Z) with true
      by (unfold len; simpl List.length; symmetry; apply andb_true_iff; split;
          [reflexivity|apply Z.ltb_lt; lia]).
    split; [reflexivity|]. split; [apply Hin; now left|].
    intros g Hg. apply Hin in Hg. destruct Hg as [<-|Hg].
    + unfold not_older. apply Qle_refl.
    + inversion Hs as [|? ? _ Hh]; subst.
      exact (proj1 (Forall_forall _ _) Hh g Hg).
Qed.

(** X25: [select_planning_doc] returns a file only from an existing
    directory and for a number between 1 and the number of files shown, at
    most 5; the file is then the one at that place among the files of the
    directory, newest first, and no file left out of the list was modified
    later than it. *)
Theorem select_offers_the_newest_five (is_dir : bool) (listing : list md_file)
    (selection : string) (int_of : string -> option Z) (f : md_file) :
  select_planning_doc is_dir listing selection int_of = Some f ->
  is_dir = true
  /\ In f listing
  /\ (exists n,
        int_of (chosen_text selection) = Some n
        /\ (1 <= n <= 5)%Z /\ (n <= len listing)%Z
        /\ nth_error (sorted_by_mtime listing) (Z.to_nat (n - 1)) = Some f)
  /\ (forall g, In g (skipn 5 (sorted_by_mtime listing)) -> not_older f g).
Proof.
  unfold select_planning_doc, chosen_text.
  destruct is_dir; [|discriminate]. simpl negb. cbv iota.
  destruct (firstn 5 (sorted_by_mtime listing)) as [|f0 files] eqn:Efiles;
    [discriminate|].
  destruct (int_of _) as [n|] eqn:Hint; [|discriminate].
  destruct ((0 <=? n - 1)%Z && (n - 1 <? len (f0 :: files))%Z) eqn:Hr;
    [|discriminate].
  destruct (getitem (f0 :: files) (n - 1)) as [f'|e] eqn:Hget; [|discriminate].
  intros [= ->].
  apply andb_true_iff in Hr. destruct Hr as [Hl Hu].
  apply Z.leb_le in Hl. apply Z.ltb_lt in Hu.
  apply getitem_nth in Hget; [|exact Hl].
  rewrite <- Efiles in Hget, Hu.
  assert (Hlen : (len (firstn 5 (sorted_by_mtime listing)) <= 5)%Z).
  { unfold len. rewrite length_firstn. lia. }
  assert (Hlen' : (len (firstn 5 (sorted_by_mtime listing)) <= len listing)%Z).
  { unfold len. rewrite length_firstn.
    assert (List.length (sorted_by_mtime listing) = List.length listing).
    { clear. induction listing as [|h l IH]; simpl; [reflexivity|].
      rewrite <- IH. generalize (sorted_by_mtime l) as s. clear.
      induction s as [|g s IH]; simpl; [reflexivity|].
      destruct (Qle_bool _ _); simpl; [reflexivity|now rewrite IH]. }
    lia. }
  assert (Hinf : In f (firstn 5 (sorted_by_mtime listing))).
  { eapply nth_error_In. exact Hget. }
  split; [reflexivity|]. split; [|split].
  - apply sorted_by_mtime_in. eapply in_firstn. exact Hinf.
  - exists n. split; [reflexivity|]. split; [lia|]. split; [lia|].
    rewrite nth_error_firstn in Hget.
    destruct (Nat.ltb _ _); [exact Hget|discriminate].
  - intros g Hg.
    exact (sorted_prefix_not_older _ 5 f g (sorted_by_mtime_sorted listing) Hinf Hg).
Qed.

End SelectPlanningDoc.

Section SelectExamples.

Import PhaseRunner.

Lemma select_default_is_newest_witness :
  exists f,
    select_planning_doc true three_drafts "" read_field = Some f
    /\ In f three_drafts
    /\ forall g, In g three_drafts -> not_older f g.
Proof.
  apply (select_default_is_newest three_drafts read_field).
  - discriminate.
  - reflexivity.
Defined.

Lemma select_offers_the_newest_five_witness :
  In (mkMdFile "mid.md" 20) three_drafts.
Proof.
  apply (select_offers_the_newest_five true three_drafts "2" read_field
           (mkMdFile "mid.md" 20)).
  reflexivity.
Defined.

End SelectExamples.

(** ** [_call_claude] *)

Section CallClaude.

Variable w : Voice.env.

Lemma getitem_last {A : Type} (l : list A) (a : A) :
  getitem (l ++ [a]) (-1) = Ok a.
Proof.
  unfold getitem, len. rewrite length_app. simpl List.length.
  replace (-1 <? 0)%Z with true by reflexivity.
  replace (-1 + Z.of_nat (List.length l + 1))%Z with (Z.of_nat (List.length l)) by lia.
  replace (Z.of_nat (List.length l) <? 0)%Z with false
    by (symmetry; apply Z.ltb_ge; lia).
  replace (Z.of_nat (List.length l + 1) <=? Z.of_nat (List.length l))%Z with false
    by (symmetry; apply Z.leb_gt; lia).
  simpl. rewrite Nat2Z.id, nth_error_app2, Nat.sub_diag by lia. reflexivity.
Qed.

(** X26: [_call_claude] calls the assistant once and never raises.  When
    the run ends with return code 0 and prints a JSON array, the result is
    the [structured_output] of the last step, whatever the steps before it
    hold; a return code other than 0, an empty array, or a last step
    without [structured_output] gives [None]. *)
Theorem call_claude_reads_the_last_step (p : Voice.prompt) :
  (forall steps items v,
     Voice.claude_run w p
     = Voice.Completed 0 (Ok (JArr (steps ++ [JObj items]))) ->
     lookup "structured_output" items = Some v ->
     Voice._call_claude w p = ([Voice.EvClaude p], Ok v))
  /\ (forall steps items,
        Voice.claude_run w p
        = Voice.Completed 0 (Ok (JArr (steps ++ [JObj items]))) ->
        lookup "structured_output" items = None ->
        Voice._call_claude w p = ([Voice.EvClaude p], Ok JNull))
  /\ (Voice.claude_run w p = Voice.Completed 0 (Ok (JArr [])) ->
      Voice._call_claude w p = ([Voice.EvClaude p], Ok JNull))
  /\ (forall rc out,
        Voice.claude_run w p = Voice.Completed rc out -> rc <> 0%Z ->
        Voice._call_claude w p = ([Voice.EvClaude p], Ok JNull))
  /\ (forall e,
        Voice.claude_run w p = Voice.RunRaises e ->
        Voice._call_claude w p = ([Voice.EvClaude p], Ok JNull)).
Proof.
  unfold Voice._call_claude. repeat split.
  - intros steps items v H Hv. rewrite H. simpl. rewrite getitem_last. simpl.
    now rewrite Hv.
  - intros steps items H Hv. rewrite H. simpl. rewrite getitem_last. simpl.
    now rewrite Hv.
  - intros H. rewrite H. reflexivity.
  - intros rc out H Hrc. rewrite H. apply Z.eqb_neq in Hrc. simpl.
    now rewrite Hrc.
  - intros e H. rewrite H. simpl. now destruct e.
Qed.

End CallClaude.

Section CallClaudeExamples.

Lemma call_claude_reads_the_last_step_witness :
  Voice._call_claude prompt_only_world (Voice.mkPrompt "(No prior context)" "hello")
  = ([Voice.EvClaude (Voice.mkPrompt "(No prior context)" "hello")],
     Ok prompt_only_output).
Proof.
  destruct (call_claude_reads_the_last_step prompt_only_world
              (Voice.mkPrompt "(No prior context)" "hello")) as (H & _).
  apply (H [JObj [("type", JStr "system")]]
           [("structured_output", prompt_only_output)]); reflexivity.
Defined.

End CallClaudeExamples.
